(** * node_app: the customers / addresses HTTP service of [src/app.js]

    A shallow embedding of the nine Express route handlers of [app.js]
    together with the part of the SQLite store they talk to, followed by the
    properties of the request-lifecycle contract.

    Layout:
    - [Js]      : the JSON values a request body can carry, with JavaScript
                  truthiness ([!x]), and the arithmetic of JavaScript
                  numbers on integers;
    - [Sqlite]  : the two tables of the schema of [app.js] and the nine
                  parameterised statements the handlers issue;
    - [App]     : the handlers, one definition per route;
    - the vocabulary of the properties, then the properties.

    Scope of the model.  Requests are served one at a time.  The store is
    SQLite as the [sqlite3] driver presents it: a statement is atomic, a
    failed statement changes nothing.  A database is a value of type
    [database].  A [string] is the sequence of the UTF-8 bytes of a text.  A
    route parameter and the [page] and [limit] of a query are the integers
    their decimal text denotes.  The ids of a route are compared and kept as
    these integers, which is what the store does with ids of at most 64
    bits; beyond, it keeps a rounded REAL.  A table has fewer than 2^53
    rows, so that [total / limit] is computed on exact numbers. *)

From Stdlib Require Import ZArith List Bool String Ascii Lia DecimalString DecimalPos.
Import ListNotations.

Local Open Scope string_scope.
Local Open Scope Z_scope.

(* ------------------------------------------------------------------ *)
(** ** JavaScript values                                                *)
(* ------------------------------------------------------------------ *)

Module Js.

(** The integer-valued JSON numbers below 10^15 in magnitude: the numbers
    whose binding and text form in the store are modelled.  Fractions and
    larger numbers are not values of [jsvalue]. *)
Definition integer_range (n : Z) : bool := Z.abs n <? 1000000000000000.

Record js_integer : Type := mkInteger {
  integer_value : Z;
  integer_in_range : integer_range integer_value = true
}.

(** What [express.json()] can put in a field of [req.body].  A field that is
    missing from the body destructures to [undefined]. *)
#[warning="-register-all"]
Inductive jsvalue : Type :=
| JUndefined
| JNull
| JBool (b : bool)
| JNumber (n : js_integer)
| JString (s : string)
| JArray (elements : list jsvalue)
| JObject (properties : list (string * jsvalue)).

(** JavaScript [ToBoolean]: the values for which [!x] is [false].  Objects
    and arrays are truthy whatever they contain. *)
Definition truthy (v : jsvalue) : bool :=
  match v with
  | JUndefined => false
  | JNull => false
  | JBool b => b
  | JNumber n => negb (integer_value n =? 0)
  | JString s => negb (s =? "")%string
  | JArray _ => true
  | JObject _ => true
  end.

Definition decimal (n : Z) : string := NilZero.string_of_int (Z.to_int n).

(** *** JavaScript numbers on integers *)

(** A JavaScript number that is an integer, an infinity or [NaN].
    [Finite n] is the double whose value is [n]. *)
Inductive jsnumber : Type :=
| Finite (n : Z)
| PosInfinity
| NegInfinity
| NaN.

(** The magnitude of the double nearest to an integer of magnitude [a]:
    up to 2^53 the integer itself; above, [a] rounded to 53 significant bits,
    a tie going to the even one. *)
Definition round_magnitude (a : Z) : Z :=
  if a <=? 2 ^ 53 then a
  else
    let e := Z.log2 a - 52 in
    let q := a / 2 ^ e in
    let r := a mod 2 ^ e in
    let half := 2 ^ (e - 1) in
    let q' := if r <? half then q
              else if half <? r then q + 1
              else if Z.even q then q else q + 1 in
    q' * 2 ^ e.

(** The JavaScript number of an integer: what [Number] and [parseInt] make
    of its decimal text, and what an arithmetic operation makes of its exact
    result.  From 2^1024 on the rounded magnitude is an infinity. *)
Definition to_number (x : Z) : jsnumber :=
  let m := round_magnitude (Z.abs x) in
  if 2 ^ 1024 <=? m then (if x <? 0 then NegInfinity else PosInfinity)
  else Finite (Z.sgn x * m).

(** [a - b] *)
Definition js_sub (a b : jsnumber) : jsnumber :=
  match a, b with
  | NaN, _ | _, NaN => NaN
  | Finite x, Finite y => to_number (x - y)
  | Finite _, PosInfinity => NegInfinity
  | Finite _, NegInfinity => PosInfinity
  | PosInfinity, PosInfinity => NaN
  | NegInfinity, NegInfinity => NaN
  | PosInfinity, _ => PosInfinity
  | NegInfinity, _ => NegInfinity
  end.

(** An infinity of the sign of [x], or [NaN] when [x] is zero. *)
Definition infinity_times (positive : bool) (x : Z) : jsnumber :=
  if x =? 0 then NaN
  else if Bool.eqb positive (0 <? x) then PosInfinity else NegInfinity.

(** [a * b] *)
Definition js_mul (a b : jsnumber) : jsnumber :=
  match a, b with
  | NaN, _ | _, NaN => NaN
  | Finite x, Finite y => to_number (x * y)
  | Finite x, PosInfinity | PosInfinity, Finite x => infinity_times true x
  | Finite x, NegInfinity | NegInfinity, Finite x => infinity_times false x
  | PosInfinity, PosInfinity | NegInfinity, NegInfinity => PosInfinity
  | PosInfinity, NegInfinity | NegInfinity, PosInfinity => NegInfinity
  end.

(** [Math.ceil(a / b)] for integers [a] and [b]: a quotient by zero is
    [NaN] or an infinity. *)
Definition ceil_div (a b : Z) : jsnumber :=
  if b =? 0 then
    if a =? 0 then NaN else if 0 <? a then PosInfinity else NegInfinity
  else Finite (- ((- a) / b)).

(** [Math.ceil(a / b)] for an integer [a] and a number [b]: a quotient by
    an infinity is zero. *)
Definition ceil_quotient (a : Z) (b : jsnumber) : jsnumber :=
  match b with
  | Finite l => ceil_div a l
  | PosInfinity | NegInfinity => Finite 0
  | NaN => NaN
  end.

End Js.
Export Js.

(* ------------------------------------------------------------------ *)
(** ** The SQLite store                                                 *)
(* ------------------------------------------------------------------ *)

Module Sqlite.

(** A row of [customers (id, first_name, last_name, phone_number)]. *)
Record customer : Type := mkCustomer {
  id : Z;
  first_name : string;
  last_name : string;
  phone_number : string
}.

(** A row of [addresses (id, customer_id, address_details, city, state,
    pin_code)]. *)
Record address : Type := mkAddress {
  address_id : Z;
  customer_id : Z;
  address_details : string;
  city : string;
  state : string;
  pin_code : string
}.

(** The database behind the connection [db].  Both tables are kept in rowid
    order, which is the order a [SELECT] without [ORDER BY] scans them in.
    [seq_customers] and [seq_addresses] are the [sqlite_sequence] entries of
    the two [AUTOINCREMENT] keys.  [foreign_keys] is the connection's
    [PRAGMA foreign_keys] setting. *)
Record database : Type := mkDatabase {
  customers : list customer;
  addresses : list address;
  seq_customers : Z;
  seq_addresses : Z;
  foreign_keys : bool
}.

(** [new sqlite3.Database('./database.db')] followed by the two
    [CREATE TABLE IF NOT EXISTS] statements, on a fresh file.  [app.js] never
    issues [PRAGMA foreign_keys = ON], so the connection keeps SQLite's
    default, which is OFF. *)
Definition open_database : database :=
  {| customers := []; addresses := [];
     seq_customers := 0; seq_addresses := 0;
     foreign_keys := false |}.

(** A value bound to a [?] placeholder.  [SqlReal n] is the REAL of the
    integer value [n]. *)
Inductive sqlvalue : Type :=
| SqlNull
| SqlInteger (n : Z)
| SqlReal (n : Z)
| SqlText (s : string).

(** The integers of 32 and of 64 bits. *)
Definition int32 (n : Z) : bool := (-2147483648 <=? n) && (n <=? 2147483647).

Definition int64 (n : Z) : bool :=
  (-9223372036854775808 <=? n) && (n <=? 9223372036854775807).

(** How the driver binds an element of the parameter array of [db.run]: a
    string as TEXT; a number as INTEGER when it is an integer of 32 bits and
    as REAL otherwise; a boolean as INTEGER 1 or 0; [null] as NULL
    ([undefined] is left unbound, which is NULL too); and any other object,
    an array included, as the TEXT ['[object Object]']. *)
Definition bind (v : jsvalue) : sqlvalue :=
  match v with
  | JUndefined => SqlNull
  | JNull => SqlNull
  | JBool b => SqlInteger (if b then 1 else 0)
  | JNumber n =>
      if int32 (integer_value n) then SqlInteger (integer_value n)
      else SqlReal (integer_value n)
  | JString s => SqlText s
  | JArray _ => SqlText "[object Object]"
  | JObject _ => SqlText "[object Object]"
  end.

(** Storing into a [TEXT NOT NULL] column: a number is converted to its text
    form, which for a REAL of integer value ends in [".0"]; NULL is refused
    ([None]). *)
Definition text_not_null (v : sqlvalue) : option string :=
  match v with
  | SqlNull => None
  | SqlInteger n => Some (decimal n)
  | SqlReal n => Some (decimal n ++ ".0")%string
  | SqlText s => Some s
  end.

Inductive sqlite_error : Type :=
| NotNullFailed
| UniqueFailed
| ForeignKeyFailed
| Mismatch.

(** [err.message] *)
Definition error_message (e : sqlite_error) : string :=
  match e with
  | NotNullFailed => "SQLITE_CONSTRAINT: NOT NULL constraint failed"
  | UniqueFailed =>
      "SQLITE_CONSTRAINT: UNIQUE constraint failed: customers.phone_number"
  | ForeignKeyFailed => "SQLITE_CONSTRAINT: FOREIGN KEY constraint failed"
  | Mismatch => "SQLITE_MISMATCH: datatype mismatch"
  end.

(** The [this] of a [db.run] callback. *)
Record run_result : Type := mkRun { lastID : Z; changes : Z }.

(** A statement either fails and leaves the database as it was, or yields a
    result and the next database. *)
Definition statement (A : Type) : Type := database -> sqlite_error + (A * database).

Definition max_rowid (ids : list Z) : Z := fold_right Z.max 0 ids.

(** The rowid an [AUTOINCREMENT] key gives the next row: one more than the
    largest rowid the table has ever held. *)
Definition next_rowid (seq : Z) (ids : list Z) : Z := Z.max seq (max_rowid ids) + 1.

(** [COUNT( * )] *)
Definition count {A : Type} (l : list A) : Z := Z.of_nat (List.length l).

(** *** [LIKE] *)

(** SQLite folds the upper-case ASCII letters before comparing two
    characters of a [LIKE]; every other character is compared as it is. *)
Definition to_lower (c : ascii) : ascii :=
  let n := nat_of_ascii c in
  if (65 <=? n)%nat && (n <=? 90)%nat then ascii_of_nat (n + 32) else c.

Definition char_eq_nocase (c d : ascii) : bool :=
  Ascii.eqb (to_lower c) (to_lower d).

(** A byte that continues a UTF-8 character, and a byte after which the
    store reads the continuation bytes as part of the same character. *)
Definition continuation (b : ascii) : bool :=
  let n := nat_of_ascii b in (128 <=? n)%nat && (n <=? 191)%nat.

Definition lead (b : ascii) : bool := (192 <=? nat_of_ascii b)%nat.

(** The text up to its first NUL: [LIKE] reads its operands as
    NUL-terminated. *)
Fixpoint until_nul (s : string) : string :=
  match s with
  | EmptyString => EmptyString
  | String c s' => if Ascii.eqb c zero then EmptyString else String c (until_nul s')
  end.

Fixpoint drop_continuation (s : string) : string :=
  match s with
  | EmptyString => EmptyString
  | String c s' => if continuation c then drop_continuation s' else s
  end.

(** The text after its first character, if it has one. *)
Definition skip_char (s : string) : option string :=
  match s with
  | EmptyString => None
  | String c s' => Some (if lead c then drop_continuation s' else s')
  end.

(** The matching of [LIKE] without [ESCAPE] on NUL-free operands: ["%"]
    matches any run of characters, the empty one included, ["_"] matches any
    one character, and any other byte matches itself up to ASCII case.  A run
    of ["%"] ends where a character ends: [swallow] tells that the bytes read
    are still inside a character. *)
Fixpoint like_text (pattern text : string) : bool :=
  match pattern with
  | EmptyString =>
      match text with EmptyString => true | String _ _ => false end
  | String p pattern' =>
      if Ascii.eqb p "%" then
        (fix any_run (swallow : bool) (t : string) : bool :=
           match t with
           | EmptyString => like_text pattern' EmptyString
           | String b t' =>
               if swallow && continuation b then any_run true t'
               else like_text pattern' t || any_run (lead b) t'
           end) false text
      else if Ascii.eqb p "_" then
        match skip_char text with
        | None => false
        | Some text' => like_text pattern' text'
        end
      else
        match text with
        | EmptyString => false
        | String c text' => char_eq_nocase p c && like_text pattern' text'
        end
  end.

(** [text LIKE pattern].  The pattern of the listing comes from the query
    string of a request, which Node bounds well below the length at which
    SQLite refuses a [LIKE] pattern. *)
Definition like (pattern text : string) : bool :=
  like_text (until_nul pattern) (until_nul text).

(** [LIMIT ? OFFSET ?]: a negative limit is no limit, a negative offset is
    no offset. *)
Definition limit_offset {A : Type} (limit offset : Z) (rows : list A) : list A :=
  let rest := skipn (Z.to_nat offset) rows in
  if limit <? 0 then rest else firstn (Z.to_nat limit) rest.

(** *** The statements of [app.js] *)

(** The [WHERE] clause of the customer listing: [None] when the handler adds
    no clause, [Some p] for
    [first_name LIKE p OR last_name LIKE p OR phone_number LIKE p]. *)
Definition where_like (pattern : option string) (c : customer) : bool :=
  match pattern with
  | None => true
  | Some p =>
      like p (first_name c) || like p (last_name c) || like p (phone_number c)
  end.

(** [INSERT INTO customers (first_name, last_name, phone_number)
     VALUES (?, ?, ?)] *)
Definition insert_customer (f l p : sqlvalue) : statement run_result :=
  fun db =>
    match text_not_null f, text_not_null l, text_not_null p with
    | Some f', Some l', Some p' =>
        if existsb (fun c => (phone_number c =? p')%string) (customers db)
        then inl UniqueFailed
        else
          let rowid := next_rowid (seq_customers db) (map id (customers db)) in
          inr ({| lastID := rowid; changes := 1 |},
               {| customers := customers db ++ [mkCustomer rowid f' l' p'];
                  addresses := addresses db;
                  seq_customers := rowid;
                  seq_addresses := seq_addresses db;
                  foreign_keys := foreign_keys db |})
    | _, _, _ => inl NotNullFailed
    end.

(** [SELECT COUNT( * ) AS count FROM customers [WHERE ...]] *)
Definition count_customers (pattern : option string) : statement Z :=
  fun db => inr (count (filter (where_like pattern) (customers db)), db).

(** [SELECT * FROM customers [WHERE ...] LIMIT ? OFFSET ?].  [limit] is
    bound as the text of the query (or as the number 10) and [offset] as a
    number; the store wants both to be integers of 64 bits, a REAL being
    taken when its value is an integer strictly inside that range, and fails
    with a datatype mismatch otherwise. *)
Definition select_customers (pattern : option string) (limit : Z) (offset : jsnumber)
  : statement (list customer) :=
  fun db =>
    if negb (int64 limit) then inl Mismatch
    else
      match offset with
      | Finite o =>
          if (-9223372036854775808 <? o) && (o <? 9223372036854775808)
          then inr (limit_offset limit o (filter (where_like pattern) (customers db)),
                    db)
          else inl Mismatch
      | _ => inl Mismatch
      end.

(** [SELECT * FROM customers WHERE id = ?], read with [db.get]: the first
    row, if any. *)
Definition select_customer (i : Z) : statement (option customer) :=
  fun db => inr (find (fun c => id c =? i) (customers db), db).

(** [UPDATE customers SET first_name = ?, last_name = ?, phone_number = ?
     WHERE id = ?].  The row keeps its [id]; the new phone number must not be
     that of another row. *)
Definition update_customer (f l p : sqlvalue) (i : Z) : statement run_result :=
  fun db =>
    let hit := filter (fun c => id c =? i) (customers db) in
    match hit with
    | [] => inr ({| lastID := seq_customers db; changes := 0 |}, db)
    | _ :: _ =>
        match text_not_null f, text_not_null l, text_not_null p with
        | Some f', Some l', Some p' =>
            if existsb (fun c => negb (id c =? i) && (phone_number c =? p')%string)
                 (customers db)
            then inl UniqueFailed
            else
              inr ({| lastID := seq_customers db; changes := count hit |},
                   {| customers :=
                        map (fun c => if id c =? i then mkCustomer (id c) f' l' p' else c)
                            (customers db);
                      addresses := addresses db;
                      seq_customers := seq_customers db;
                      seq_addresses := seq_addresses db;
                      foreign_keys := foreign_keys db |})
        | _, _, _ => inl NotNullFailed
        end
    end.

(** [DELETE FROM customers WHERE id = ?].  The [ON DELETE CASCADE] of
    [addresses.customer_id] is a foreign-key action: SQLite runs it only on a
    connection whose [foreign_keys] setting is ON.  [changes] counts the
    customer rows only. *)
Definition delete_customer (i : Z) : statement run_result :=
  fun db =>
    let hit := filter (fun c => id c =? i) (customers db) in
    let cascade := foreign_keys db && negb (count hit =? 0) in
    inr ({| lastID := seq_customers db; changes := count hit |},
         {| customers := filter (fun c => negb (id c =? i)) (customers db);
            addresses :=
              if cascade
              then filter (fun a => negb (customer_id a =? i)) (addresses db)
              else addresses db;
            seq_customers := seq_customers db;
            seq_addresses := seq_addresses db;
            foreign_keys := foreign_keys db |}).

(** [INSERT INTO addresses (customer_id, address_details, city, state,
     pin_code) VALUES (?, ?, ?, ?, ?)].  The parent row is looked for only on
     a connection whose [foreign_keys] setting is ON.  [cid] is kept as the
     integer it is, as the store does for an id of at most 64 bits. *)
Definition insert_address (cid : Z) (d c s p : sqlvalue) : statement run_result :=
  fun db =>
    match text_not_null d, text_not_null c, text_not_null s, text_not_null p with
    | Some d', Some c', Some s', Some p' =>
        if foreign_keys db && negb (existsb (fun r => id r =? cid) (customers db))
        then inl ForeignKeyFailed
        else
          let rowid := next_rowid (seq_addresses db) (map address_id (addresses db)) in
          inr ({| lastID := rowid; changes := 1 |},
               {| customers := customers db;
                  addresses := addresses db ++ [mkAddress rowid cid d' c' s' p'];
                  seq_customers := seq_customers db;
                  seq_addresses := rowid;
                  foreign_keys := foreign_keys db |})
    | _, _, _, _ => inl NotNullFailed
    end.

(** [SELECT * FROM addresses WHERE customer_id = ?] *)
Definition select_addresses (cid : Z) : statement (list address) :=
  fun db => inr (filter (fun a => customer_id a =? cid) (addresses db), db).

(** [UPDATE addresses SET address_details = ?, city = ?, state = ?,
     pin_code = ? WHERE id = ?] *)
Definition update_address (d c s p : sqlvalue) (i : Z) : statement run_result :=
  fun db =>
    let hit := filter (fun a => address_id a =? i) (addresses db) in
    match hit with
    | [] => inr ({| lastID := seq_addresses db; changes := 0 |}, db)
    | _ :: _ =>
        match text_not_null d, text_not_null c, text_not_null s, text_not_null p with
        | Some d', Some c', Some s', Some p' =>
            inr ({| lastID := seq_addresses db; changes := count hit |},
                 {| customers := customers db;
                    addresses :=
                      map (fun a =>
                             if address_id a =? i
                             then mkAddress (address_id a) (customer_id a) d' c' s' p'
                             else a)
                          (addresses db);
                    seq_customers := seq_customers db;
                    seq_addresses := seq_addresses db;
                    foreign_keys := foreign_keys db |})
        | _, _, _, _ => inl NotNullFailed
        end
    end.

(** [DELETE FROM addresses WHERE id = ?] *)
Definition delete_address (i : Z) : statement run_result :=
  fun db =>
    let hit := filter (fun a => address_id a =? i) (addresses db) in
    inr ({| lastID := seq_addresses db; changes := count hit |},
         {| customers := customers db;
            addresses := filter (fun a => negb (address_id a =? i)) (addresses db);
            seq_customers := seq_customers db;
            seq_addresses := seq_addresses db;
            foreign_keys := foreign_keys db |}).

End Sqlite.
Export Sqlite.

(* ------------------------------------------------------------------ *)
(** ** The route handlers of [app.js]                                   *)
(* ------------------------------------------------------------------ *)

Module App.

(** [req.body] of the two customer routes that read one, when a JSON body
    was parsed. *)
Module CustomerBody.
Record t : Type := make {
  first_name : jsvalue;
  last_name : jsvalue;
  phone_number : jsvalue
}.
End CustomerBody.

(** [req.body] of the two address routes that read one, when a JSON body
    was parsed. *)
Module AddressBody.
Record t : Type := make {
  address_details : jsvalue;
  city : jsvalue;
  state : jsvalue;
  pin_code : jsvalue
}.
End AddressBody.

(** [req.query] of [GET /api/customers]; [None] is a parameter that is not
    in the query string.  [page] and [limit] are the integers their decimal
    text denotes. *)
Module Query.
Record t : Type := make {
  page : option Z;
  limit : option Z;
  search : option string
}.
End Query.

Record pagination : Type := mkPagination {
  total : Z;
  page : jsnumber;
  limit : jsnumber;
  totalPages : jsnumber
}.

(** What the service sends: the JSON documents of the handlers, and the
    error page of Express for an exception a handler did not catch
    ([Uncaught], with the message of the exception). *)
Inductive json : Type :=
| Message (message : string)
| MessageId (message : string) (id : Z)
| MessageCustomer (message : string) (data : customer)
| MessageCustomers (message : string) (data : list customer) (pages : pagination)
| MessageAddresses (message : string) (data : list address)
| MessageError (message : string) (error : string)
| Uncaught (exception : string).

Record response : Type := mkResponse { status : Z; body : json }.

(** [res.status(status).json({ message, error: ... })] *)
Definition sendError (status : Z) (message : string) (error : option sqlite_error)
  : response :=
  {| status := status;
     body := MessageError message
               match error with
               | Some e => error_message e
               | None => "An unknown error occurred."
               end |}.

(** [const { first_name, ... } = req.body] when no body was parsed:
    [req.body] is [undefined], the destructuring throws a [TypeError], and
    Express answers 500 with its error page. *)
Definition cannot_destructure (property : string) : response :=
  {| status := 500;
     body := Uncaught ("TypeError: Cannot destructure property '" ++ property
                       ++ "' of 'req.body' as it is undefined.")%string |}.

Definition handler : Type := database -> response * database.

(** [POST /api/customers] *)
Definition post_customers (body : option CustomerBody.t) : handler :=
  fun db =>
    match body with
    | None => (cannot_destructure "first_name", db)
    | Some req =>
        if negb (truthy (CustomerBody.first_name req))
           || negb (truthy (CustomerBody.last_name req))
           || negb (truthy (CustomerBody.phone_number req))
        then (sendError 400 "All fields are required." None, db)
        else
          match insert_customer (bind (CustomerBody.first_name req))
                                (bind (CustomerBody.last_name req))
                                (bind (CustomerBody.phone_number req)) db with
          | inl err => (sendError 500 "Error creating customer." (Some err), db)
          | inr (this, db') =>
              ({| status := 201;
                  body := MessageId "Customer created successfully" (lastID this) |},
               db')
          end
    end.

Definition default {A : Type} (d : A) (o : option A) : A :=
  match o with Some x => x | None => d end.

(** [GET /api/customers] *)
Definition get_customers (req : Query.t) : handler :=
  fun db =>
    let page := default 1 (Query.page req) in
    let limit := default 10 (Query.limit req) in
    let search := default "" (Query.search req) in
    let offset := js_mul (js_sub (to_number page) (Finite 1)) (to_number limit) in
    let params :=
      if truthy (JString search) then Some ("%" ++ search ++ "%")%string else None in
    match count_customers params db with
    | inl err => (sendError 500 "Error counting customers." (Some err), db)
    | inr (totalCustomers, db1) =>
        match select_customers params limit offset db1 with
        | inl err => (sendError 500 "Error fetching customers." (Some err), db1)
        | inr (rows, db2) =>
            ({| status := 200;
                body := MessageCustomers "Customers fetched successfully" rows
                          {| total := totalCustomers;
                             page := to_number page;
                             limit := to_number limit;
                             totalPages :=
                               ceil_quotient totalCustomers (to_number limit) |} |},
             db2)
        end
    end.

(** [GET /api/customers/:id] *)
Definition get_customer (id : Z) : handler :=
  fun db =>
    match select_customer id db with
    | inl err => (sendError 500 "Error fetching customer." (Some err), db)
    | inr (None, db') => (sendError 404 "Customer not found." None, db')
    | inr (Some row, db') =>
        ({| status := 200;
            body := MessageCustomer "Customer fetched successfully" row |}, db')
    end.

(** [PUT /api/customers/:id] *)
Definition put_customer (id : Z) (body : option CustomerBody.t) : handler :=
  fun db =>
    match body with
    | None => (cannot_destructure "first_name", db)
    | Some req =>
        if negb (truthy (CustomerBody.first_name req))
           || negb (truthy (CustomerBody.last_name req))
           || negb (truthy (CustomerBody.phone_number req))
        then (sendError 400 "All fields are required." None, db)
        else
          match update_customer (bind (CustomerBody.first_name req))
                                (bind (CustomerBody.last_name req))
                                (bind (CustomerBody.phone_number req)) id db with
          | inl err => (sendError 500 "Error updating customer." (Some err), db)
          | inr (this, db') =>
              if changes this =? 0
              then (sendError 404 "Customer not found or no changes made." None, db')
              else ({| status := 200;
                       body := Message "Customer updated successfully" |}, db')
          end
    end.

(** [DELETE /api/customers/:id] *)
Definition delete_customers (id : Z) : handler :=
  fun db =>
    match delete_customer id db with
    | inl err => (sendError 500 "Error deleting customer." (Some err), db)
    | inr (this, db') =>
        if changes this =? 0
        then (sendError 404 "Customer not found." None, db')
        else ({| status := 200; body := Message "Customer deleted successfully" |},
              db')
    end.

(** [POST /api/customers/:id/addresses] *)
Definition post_addresses (customer_id : Z) (body : option AddressBody.t) : handler :=
  fun db =>
    match body with
    | None => (cannot_destructure "address_details", db)
    | Some req =>
        if negb (truthy (AddressBody.address_details req))
           || negb (truthy (AddressBody.city req))
           || negb (truthy (AddressBody.state req))
           || negb (truthy (AddressBody.pin_code req))
        then (sendError 400 "All address fields are required." None, db)
        else
          match insert_address customer_id
                               (bind (AddressBody.address_details req))
                               (bind (AddressBody.city req))
                               (bind (AddressBody.state req))
                               (bind (AddressBody.pin_code req)) db with
          | inl err => (sendError 500 "Error adding address." (Some err), db)
          | inr (this, db') =>
              ({| status := 201;
                  body := MessageId "Address added successfully" (lastID this) |},
               db')
          end
    end.

(** [GET /api/customers/:id/addresses] *)
Definition get_addresses (id : Z) : handler :=
  fun db =>
    match select_addresses id db with
    | inl err => (sendError 500 "Error fetching addresses." (Some err), db)
    | inr (rows, db') =>
        ({| status := 200;
            body := MessageAddresses "Addresses fetched successfully" rows |}, db')
    end.

(** [PUT /api/addresses/:addressId] *)
Definition put_address (addressId : Z) (body : option AddressBody.t) : handler :=
  fun db =>
    match body with
    | None => (cannot_destructure "address_details", db)
    | Some req =>
        if negb (truthy (AddressBody.address_details req))
           || negb (truthy (AddressBody.city req))
           || negb (truthy (AddressBody.state req))
           || negb (truthy (AddressBody.pin_code req))
        then (sendError 400 "All address fields are required." None, db)
        else
          match update_address (bind (AddressBody.address_details req))
                               (bind (AddressBody.city req))
                               (bind (AddressBody.state req))
                               (bind (AddressBody.pin_code req)) addressId db with
          | inl err => (sendError 500 "Error updating address." (Some err), db)
          | inr (this, db') =>
              if changes this =? 0
              then (sendError 404 "Address not found or no changes made." None, db')
              else ({| status := 200;
                       body := Message "Address updated successfully" |}, db')
          end
    end.

(** [DELETE /api/addresses/:addressId] *)
Definition delete_addresses (addressId : Z) : handler :=
  fun db =>
    match delete_address addressId db with
    | inl err => (sendError 500 "Error deleting address." (Some err), db)
    | inr (this, db') =>
        if changes this =? 0
        then (sendError 404 "Address not found." None, db')
        else ({| status := 200; body := Message "Address deleted successfully" |},
              db')
    end.

(** The requests the router dispatches.  A body is [None] when no JSON body
    was parsed for the request.  A route parameter [:id] or [:addressId]
    reaches the store as text and is compared with an INTEGER column, which
    reads numeric text as the integer it denotes: the model carries that
    integer. *)
Inductive request : Type :=
| POST_customers (body : option CustomerBody.t)
| GET_customers (req : Query.t)
| GET_customer (id : Z)
| PUT_customer (id : Z) (body : option CustomerBody.t)
| DELETE_customer (id : Z)
| POST_addresses (id : Z) (body : option AddressBody.t)
| GET_addresses (id : Z)
| PUT_address (addressId : Z) (body : option AddressBody.t)
| DELETE_address (addressId : Z).

Definition route (r : request) : handler :=
  match r with
  | POST_customers body => post_customers body
  | GET_customers req => get_customers req
  | GET_customer id => get_customer id
  | PUT_customer id body => put_customer id body
  | DELETE_customer id => delete_customers id
  | POST_addresses id body => post_addresses id body
  | GET_addresses id => get_addresses id
  | PUT_address addressId body => put_address addressId body
  | DELETE_address addressId => delete_addresses addressId
  end.

(** Serving a sequence of requests one after the other. *)
Fixpoint serve (rs : list request) (db : database) : list response * database :=
  match rs with
  | [] => ([], db)
  | r :: rs' =>
      let (res, db1) := route r db in
      let (ress, db2) := serve rs' db1 in
      (res :: ress, db2)
  end.

End App.
Export App.
(* ------------------------------------------------------------------ *)
(** ** Vocabulary of the properties                                     *)
(* ------------------------------------------------------------------ *)

(** *** Request fields *)

(** A request field that is the non-empty JSON string [s]. *)
Definition nonempty_text (v : jsvalue) (s : string) : Prop :=
  v = JString s /\ s <> "".

(** A request field that is missing, [null] or the empty string. *)
Definition empty_or_absent (v : jsvalue) : Prop :=
  v = JUndefined \/ v = JNull \/ v = JString "".

(** A request field that is a JSON string, or is missing. *)
Definition text_or_absent (v : jsvalue) : Prop :=
  v = JUndefined \/ exists s, v = JString s.

(** A request all of whose body fields are JSON strings or missing. *)
Definition text_request (r : request) : Prop :=
  match r with
  | POST_customers (Some req) | PUT_customer _ (Some req) =>
      text_or_absent (CustomerBody.first_name req)
      /\ text_or_absent (CustomerBody.last_name req)
      /\ text_or_absent (CustomerBody.phone_number req)
  | POST_addresses _ (Some req) | PUT_address _ (Some req) =>
      text_or_absent (AddressBody.address_details req)
      /\ text_or_absent (AddressBody.city req)
      /\ text_or_absent (AddressBody.state req)
      /\ text_or_absent (AddressBody.pin_code req)
  | _ => True
  end.

(** The bodies [{ first_name: f, last_name: l, phone_number: p }] and
    [{ address_details: d, city: c, state: s, pin_code: p }] of strings. *)
Definition text_customer (f l p : string) : CustomerBody.t :=
  CustomerBody.make (JString f) (JString l) (JString p).

Definition text_address (d c s p : string) : AddressBody.t :=
  AddressBody.make (JString d) (JString c) (JString s) (JString p).

(** *** Tables *)

(** Some customer row has the phone number [p]. *)
Definition phone_stored (p : string) (db : database) : Prop :=
  exists c, In c (customers db) /\ phone_number c = p.

(** No two rows of a table share their [id] (the primary keys). *)
Definition keys_unique (db : database) : Prop :=
  NoDup (map id (customers db)) /\ NoDup (map address_id (addresses db)).

(** Every text column of every row holds a non-empty string. *)
Definition customer_texts_nonempty (c : customer) : Prop :=
  first_name c <> "" /\ last_name c <> "" /\ phone_number c <> "".

Definition address_texts_nonempty (a : address) : Prop :=
  address_details a <> "" /\ city a <> "" /\ state a <> "" /\ pin_code a <> "".

Definition texts_nonempty (db : database) : Prop :=
  Forall customer_texts_nonempty (customers db)
  /\ Forall address_texts_nonempty (addresses db).

(** What the [UPDATE] of an address does to one row of [addresses]. *)
Definition rewrite_address (i : Z) (d c s p : string) (a : address) : address :=
  if address_id a =? i
  then mkAddress (address_id a) (customer_id a) d c s p
  else a.

(** *** Searching *)

(** The [LIKE] pattern the listing builds from [search]. *)
Definition search_pattern (search : string) : option string :=
  if truthy (JString search) then Some ("%" ++ search ++ "%")%string else None.

(** The rows the [WHERE] clause of the listing keeps. *)
Definition matching (search : string) (db : database) : list customer :=
  filter (where_like (search_pattern search)) (customers db).


(** [s] with its upper-case ASCII letters folded. *)
Fixpoint lower (s : string) : string :=
  match s with
  | EmptyString => EmptyString
  | String c s' => String (to_lower c) (lower s')
  end.








Definition wildcard (c : ascii) : bool := Ascii.eqb c "%" || Ascii.eqb c "_".




Fixpoint all_chars (ok : ascii -> bool) (s : string) : bool :=
  match s with
  | EmptyString => true
  | String c s' => ok c && all_chars ok s'
  end.


(** No character of [s] is NUL. *)
Definition nul_free (s : string) : bool :=
  all_chars (fun c => negb (Ascii.eqb c zero)) s.




(** *** Sample databases *)

Definition three_customers : database :=
  {| customers := [ mkCustomer 1 "Ann" "Lee" "5550100";
                    mkCustomer 2 "Bob" "Ray" "4445551";
                    mkCustomer 3 "Cy" "Orr" "1234567" ];
     addresses := [];
     seq_customers := 3;
     seq_addresses := 0;
     foreign_keys := false |}.

Definition two_addresses : database :=
  {| customers := [ mkCustomer 1 "Ann" "Lee" "5550100" ];
     addresses := [ mkAddress 1 1 "1 Main St" "Pune" "MH" "411001";
                    mkAddress 2 1 "2 Hill Rd" "Agra" "UP" "282001" ];
     seq_customers := 1;
     seq_addresses := 2;
     foreign_keys := false |}.

(** *** Further vocabulary: reading a response, paging, sequences *)

(** No two customer rows share their [phone_number]. *)
Definition phones_unique (db : database) : Prop :=
  NoDup (map phone_number (customers db)).

(** What the [UPDATE] of a customer does to one row of [customers]. *)
Definition rewrite_customer (i : Z) (f l p : string) (c : customer) : customer :=
  if id c =? i then mkCustomer (id c) f l p else c.

(** The [data] array of a customer listing. *)
Definition customers_of (res : response) : list customer :=
  match body res with
  | MessageCustomers _ data _ => data
  | _ => []
  end.

(** The [totalPages] of a customer listing. *)
Definition total_pages_of (res : response) : option jsnumber :=
  match body res with
  | MessageCustomers _ _ pages => Some (totalPages pages)
  | _ => None
  end.

(** The [data] of [GET /api/customers?page=..&limit=..&search=..] when it is
    answered 200. *)
Definition page_rows (limit : Z) (search : option string) (db : database)
           (page : nat) : option (list customer) :=
  let res :=
    fst (get_customers (Query.make (Some (Z.of_nat page)) (Some limit) search) db) in
  if status res =? 200 then Some (customers_of res) else None.

(** Every character of [s] is ["%"]. *)
Definition percent_only (s : string) : bool :=
  all_chars (fun c => Ascii.eqb c "%") s.


(** A database in which one customer owns two addresses and another address
    names a customer that is not there. *)
Definition sample_store : database :=
  {| customers := [ mkCustomer 1 "Ann" "Lee" "5550100";
                    mkCustomer 2 "Bob" "Ray" "4445551" ];
     addresses := [ mkAddress 1 1 "1 Main St" "Pune" "MH" "411001";
                    mkAddress 2 9 "7 Far Ln" "Leh" "LA" "194101";
                    mkAddress 3 1 "2 Hill Rd" "Agra" "UP" "282001" ];
     seq_customers := 2;
     seq_addresses := 3;
     foreign_keys := false |}.

(** A request to a route that reads [req.body], sent without a JSON
    body. *)
Definition bodiless (r : request) : bool :=
  match r with
  | POST_customers None | PUT_customer _ None
  | POST_addresses _ None | PUT_address _ None => true
  | _ => false
  end.

(** *** Proof steps shared by the handlers *)

(** Case analysis on every test and every store outcome of a handler. *)
Ltac split_handler :=
  repeat match goal with
         | |- context [if ?b then _ else _] => destruct b
         | |- context [match text_not_null ?v with _ => _ end] =>
             destruct (text_not_null v)
         | |- context [match filter ?f ?l with _ => _ end] =>
             let E := fresh "E" in destruct (filter f l) eqn:E
         | |- context [match find ?f ?l with _ => _ end] => destruct (find f l)
         end.

(** The parts of the statement about the shape of an answer, on a handler
    whose tests have been decided. *)
Ltac answer_shape :=
  cbv zeta; unfold sendError, cannot_destructure; cbn [fst status body];
  split; [| split; [| split]];
  [ first [ left; reflexivity
          | right; left; reflexivity
          | right; right; left; reflexivity
          | right; right; right; left; reflexivity
          | right; right; right; right; reflexivity ]
  | intros [H | H]; try discriminate H; eexists; reflexivity
  | intros H H'; try discriminate H; try discriminate H';
    do 2 eexists; reflexivity
  | intros H;
    first [ discriminate H | split; [reflexivity | eexists; reflexivity] ] ].

(** *** The run of ["%"] as a function of what follows it *)

(** [try_boundaries k swallow t]: [k] holds of [t] or of what is left of [t]
    after some of its leading characters; this is the loop of [like_text]
    at a ["%"], with [k] the matching of the rest of the pattern. *)
Definition try_boundaries (k : string -> bool) : bool -> string -> bool :=
  fix go (swallow : bool) (t : string) : bool :=
    match t with
    | EmptyString => k EmptyString
    | String b t' =>
        if swallow && continuation b then go true t'
        else k t || go (lead b) t'
    end.

(** *** The offset of the listing *)

(** The handler's [(page - 1) * limit], as JavaScript computes it. *)
Definition computed_offset (page limit : Z) : jsnumber :=
  js_mul (js_sub (to_number page) (Finite 1)) (to_number limit).

(** A number that is [lb] at least: an integer from [lb] on, or
    [Infinity]. *)
Definition at_least (lb : Z) (n : jsnumber) : Prop :=
  match n with
  | Finite o => lb <= o
  | PosInfinity => True
  | NegInfinity | NaN => False
  end.

(* ------------------------------------------------------------------ *)
(** ** Basic facts                                                      *)
(* ------------------------------------------------------------------ *)

Set Implicit Arguments.

Lemma nonempty_text_truthy v s : nonempty_text v s -> truthy v = true.
Proof.
  intros [-> Hs]. simpl.
  destruct (String.eqb_spec s "") as [E | _]; [contradiction | reflexivity].
Qed.

Lemma empty_or_absent_falsy v : empty_or_absent v -> truthy v = false.
Proof. intros [-> | [-> | ->]]; reflexivity. Qed.

Lemma max_rowid_upper ids x : In x ids -> x <= max_rowid ids.
Proof.
  induction ids as [| y ids IH]; simpl; [contradiction |].
  intros [-> | Hin]; [lia | specialize (IH Hin); lia].
Qed.

Lemma next_rowid_fresh seq ids x : In x ids -> x < next_rowid seq ids.
Proof.
  intros Hin. apply max_rowid_upper in Hin. unfold next_rowid. lia.
Qed.

Lemma count_nil_iff {A : Type} (l : list A) : count l = 0 <-> l = [].
Proof.
  unfold count. destruct l; simpl; split; intros H; try reflexivity;
    try discriminate; lia.
Qed.

Lemma existsb_phone_false [p] [rows : list customer] :
  (forall c, In c rows -> phone_number c <> p) ->
  existsb (fun c => (phone_number c =? p)%string) rows = false.
Proof.
  intros H. induction rows as [| c rows IH]; simpl; [reflexivity |].
  destruct (String.eqb_spec (phone_number c) p) as [E | _].
  - exfalso. apply (H c); [left; reflexivity | exact E].
  - apply IH. intros c' Hc'. apply H. right. exact Hc'.
Qed.

Lemma existsb_phone_true [p] [rows : list customer] :
  (exists c, In c rows /\ phone_number c = p) ->
  existsb (fun c => (phone_number c =? p)%string) rows = true.
Proof.
  intros (c & Hin & E). apply existsb_exists. exists c. split; [exact Hin |].
  apply String.eqb_eq. exact E.
Qed.

Lemma filter_id_nil [i] [rows : list customer] :
  (forall c, In c rows -> id c <> i) ->
  filter (fun c => id c =? i) rows = [].
Proof.
  intros H. induction rows as [| c rows IH]; simpl; [reflexivity |].
  destruct (Z.eqb_spec (id c) i) as [E | _].
  - exfalso. apply (H c); [left; reflexivity | exact E].
  - apply IH. intros c' Hc'. apply H. right. exact Hc'.
Qed.

(** The listing reads only. *)
Lemma get_customers_snd req db : snd (get_customers req db) = db.
Proof.
  unfold get_customers, count_customers, select_customers. cbv zeta.
  destruct (negb _); [reflexivity |].
  destruct (js_mul _ _); try reflexivity.
  destruct (_ && _); reflexivity.
Qed.

(** No handler touches the connection's [foreign_keys] setting. *)
Lemma route_foreign_keys r db : foreign_keys (snd (route r db)) = foreign_keys db.
Proof.
  destruct r as [[req |] | req | i | i [req |] | i | i [req |] | i | i [req |] | i];
    cbn [route]; try reflexivity.
  - unfold post_customers, insert_customer. split_handler; reflexivity.
  - rewrite get_customers_snd. reflexivity.
  - unfold get_customer, select_customer. split_handler; reflexivity.
  - unfold put_customer, update_customer. split_handler; reflexivity.
  - unfold delete_customers, delete_customer; simpl. split_handler; reflexivity.
  - unfold post_addresses, insert_address. split_handler; reflexivity.
  - unfold put_address, update_address. split_handler; reflexivity.
  - unfold delete_addresses, delete_address; simpl. split_handler; reflexivity.
Qed.

Lemma serve_snd_cons r rs db :
  snd (serve (r :: rs) db) = snd (serve rs (snd (route r db))).
Proof.
  simpl. destruct (route r db) as [res db1]. simpl.
  destruct (serve rs db1) as [ress db2]. reflexivity.
Qed.

(** The service that [app.js] starts never runs with foreign keys
    enforced, whatever requests it has served. *)
Lemma serve_foreign_keys_off rs :
  foreign_keys (snd (serve rs open_database)) = false.
Proof.
  assert (G : forall db, foreign_keys (snd (serve rs db)) = foreign_keys db).
  { induction rs as [| r rs IH]; intros db; [reflexivity |].
    rewrite serve_snd_cons, IH. apply route_foreign_keys. }
  rewrite G. reflexivity.
Qed.

(* ------------------------------------------------------------------ *)
(** ** Deleting a customer                                              *)
(* ------------------------------------------------------------------ *)

Section DeleteCustomer.

Variable db : database.
Variable i : Z.
Hypothesis exists_i : exists c, In c (customers db) /\ id c = i.

Lemma delete_hits_a_row :
  (count (filter (fun c => id c =? i) (customers db)) =? 0) = false.
Proof.
  destruct exists_i as (c & Hin & E).
  apply Z.eqb_neq. intros H. apply count_nil_iff in H.
  assert (Hc : In c (filter (fun c => id c =? i) (customers db))).
  { apply filter_In. split; [exact Hin | apply Z.eqb_eq; exact E]. }
  rewrite H in Hc. contradiction.
Qed.

(** The delete itself works on any connection: status 200 and no customer
    row with that id is left. *)
Lemma delete_customers_removes_row :
  fst (delete_customers i db)
    = {| status := 200; body := Message "Customer deleted successfully" |}
  /\ customers (snd (delete_customers i db))
       = filter (fun c => negb (id c =? i)) (customers db)
  /\ forall c, In c (customers (snd (delete_customers i db))) -> id c <> i.
Proof.
  unfold delete_customers, delete_customer; simpl.
  rewrite delete_hits_a_row. simpl. repeat split.
  intros c Hc. apply filter_In in Hc. destruct Hc as [_ Hc].
  apply negb_true_iff in Hc. apply Z.eqb_neq. exact Hc.
Qed.

(** With foreign keys OFF, the setting of the connection of [app.js], the
    delete leaves the [addresses] table as it was. *)
Lemma delete_customers_keeps_addresses :
  foreign_keys db = false ->
  addresses (snd (delete_customers i db)) = addresses db.
Proof.
  intros Hfk. unfold delete_customers, delete_customer; simpl.
  rewrite delete_hits_a_row, Hfk. reflexivity.
Qed.

(** So the rows the customer owned are still listed afterwards. *)
Lemma delete_customers_then_list :
  foreign_keys db = false ->
  fst (get_addresses i (snd (delete_customers i db)))
    = {| status := 200;
         body := MessageAddresses "Addresses fetched successfully"
                   (filter (fun a => customer_id a =? i) (addresses db)) |}.
Proof.
  intros Hfk. unfold get_addresses, select_addresses.
  rewrite (delete_customers_keeps_addresses Hfk). reflexivity.
Qed.

(** Had the connection been opened with [PRAGMA foreign_keys = ON], the
    [ON DELETE CASCADE] of the schema would have removed the owned rows and
    the listing would have been empty. *)
Lemma delete_customers_cascades_when_enforced :
  foreign_keys db = true ->
  addresses (snd (delete_customers i db))
    = filter (fun a => negb (customer_id a =? i)) (addresses db)
  /\ fst (get_addresses i (snd (delete_customers i db)))
       = {| status := 200;
            body := MessageAddresses "Addresses fetched successfully" [] |}.
Proof.
  intros Hfk.
  assert (E : addresses (snd (delete_customers i db))
              = filter (fun a => negb (customer_id a =? i)) (addresses db)).
  { unfold delete_customers, delete_customer; simpl.
    rewrite delete_hits_a_row, Hfk. reflexivity. }
  split; [exact E |].
  unfold get_addresses, select_addresses. rewrite E. simpl.
  do 2 f_equal. clear E.
  induction (addresses db) as [| a l IH]; simpl; [reflexivity |].
  destruct (Z.eqb_spec (customer_id a) i) as [Ea | Na]; simpl.
  - exact IH.
  - destruct (Z.eqb_spec (customer_id a) i); [contradiction | exact IH].
Qed.

End DeleteCustomer.

(** C1: deleting a customer that owns addresses should remove the owned
    address rows too, so that listing the addresses of that id afterwards is
    empty.  On the service as [app.js] starts it, it does not: a customer is
    created, given one address and deleted (all three requests succeed), and
    the listing for its id still returns the address, which is still in the
    table. *)
Theorem delete_customer_leaves_owned_addresses :
  serve [ POST_customers (Some (text_customer "A" "B" "123"));
          POST_addresses 1 (Some (text_address "1 Main St" "Pune" "MH" "411001"));
          DELETE_customer 1;
          GET_addresses 1 ] open_database
  = ( [ {| status := 201; body := MessageId "Customer created successfully" 1 |};
        {| status := 201; body := MessageId "Address added successfully" 1 |};
        {| status := 200; body := Message "Customer deleted successfully" |};
        {| status := 200;
           body := MessageAddresses "Addresses fetched successfully"
                     [mkAddress 1 1 "1 Main St" "Pune" "MH" "411001"] |} ],
      {| customers := [];
         addresses := [mkAddress 1 1 "1 Main St" "Pune" "MH" "411001"];
         seq_customers := 1;
         seq_addresses := 1;
         foreign_keys := false |} ).
Proof. reflexivity. Qed.

(* ------------------------------------------------------------------ *)
(** ** Creating a customer                                              *)
(* ------------------------------------------------------------------ *)

Section CreateCustomer.

Variable req : CustomerBody.t.
Variable db : database.

Lemma post_customers_missing_field :
  empty_or_absent (CustomerBody.first_name req)
  \/ empty_or_absent (CustomerBody.last_name req)
  \/ empty_or_absent (CustomerBody.phone_number req) ->
  post_customers (Some req) db
  = ({| status := 400;
        body := MessageError "All fields are required."
                             "An unknown error occurred." |}, db).
Proof.
  intros H. unfold post_customers.
  destruct H as [H | [H | H]]; apply empty_or_absent_falsy in H; rewrite H;
    simpl; rewrite ?orb_true_r; reflexivity.
Qed.

Variables f l p : string.
Hypothesis text_f : nonempty_text (CustomerBody.first_name req) f.
Hypothesis text_l : nonempty_text (CustomerBody.last_name req) l.
Hypothesis text_p : nonempty_text (CustomerBody.phone_number req) p.

Lemma post_customers_reaches_store :
  post_customers (Some req) db
  = match insert_customer (SqlText f) (SqlText l) (SqlText p) db with
    | inl err => (sendError 500 "Error creating customer." (Some err), db)
    | inr (this, db') =>
        ({| status := 201;
            body := MessageId "Customer created successfully" (lastID this) |}, db')
    end.
Proof.
  unfold post_customers.
  rewrite (nonempty_text_truthy text_f), (nonempty_text_truthy text_l),
    (nonempty_text_truthy text_p). simpl.
  destruct text_f as [-> _], text_l as [-> _], text_p as [-> _]. reflexivity.
Qed.

Lemma post_customers_fresh_phone :
  (forall c, In c (customers db) -> phone_number c <> p) ->
  let newid := next_rowid (seq_customers db) (map id (customers db)) in
  post_customers (Some req) db
  = ({| status := 201; body := MessageId "Customer created successfully" newid |},
     {| customers := customers db ++ [mkCustomer newid f l p];
        addresses := addresses db;
        seq_customers := newid;
        seq_addresses := seq_addresses db;
        foreign_keys := foreign_keys db |}).
Proof.
  intros Hp newid. rewrite post_customers_reaches_store.
  unfold insert_customer. simpl. rewrite (existsb_phone_false Hp). reflexivity.
Qed.

Lemma post_customers_stored_phone :
  phone_stored p db ->
  post_customers (Some req) db
  = ({| status := 500;
        body := MessageError "Error creating customer."
                  "SQLITE_CONSTRAINT: UNIQUE constraint failed: customers.phone_number" |},
     db).
Proof.
  intros Hp. rewrite post_customers_reaches_store.
  unfold insert_customer. simpl. rewrite (existsb_phone_true Hp). reflexivity.
Qed.

(** Whatever the outcome of a create with well-formed fields, its phone
    number is in the table afterwards. *)
Lemma post_customers_phone_stored_after :
  phone_stored p (snd (post_customers (Some req) db)).
Proof.
  destruct (existsb (fun c => (phone_number c =? p)%string) (customers db)) eqn:E.
  - assert (Hp : phone_stored p db).
    { apply existsb_exists in E. destruct E as (c & Hin & Hc).
      exists c. split; [exact Hin | apply String.eqb_eq; exact Hc]. }
    rewrite (post_customers_stored_phone Hp). exact Hp.
  - rewrite post_customers_reaches_store. unfold insert_customer. simpl.
    rewrite E. simpl. exists (mkCustomer
      (next_rowid (seq_customers db) (map id (customers db))) f l p).
    split; [apply in_or_app; right; left; reflexivity | reflexivity].
Qed.

End CreateCustomer.

(** C2: a create in which the fields are absent should be answered 400.  A
    create for which no JSON body was parsed has all three fields absent, but
    it never reaches the presence check: [req.body] is [undefined], the
    destructuring of line 54 throws, and the request is answered 500 with
    the error page of Express.  The database is left as it was. *)
Theorem create_without_body_is_not_validated (db : database) :
  post_customers None db
  = ({| status := 500;
        body := Uncaught
                  "TypeError: Cannot destructure property 'first_name' of 'req.body' as it is undefined." |},
     db).
Proof. reflexivity. Qed.

(** X21: a create whose JSON body was parsed.  When one of the three
    fields is empty or absent it is answered 400 and leaves the store exactly
    as it was; when the three fields are non-empty strings, with a phone
    number no stored customer has, it is answered 201 with the id of the one
    row it appends, an id larger than that of every row already there. *)
Theorem create_validates_then_inserts (req : CustomerBody.t) (db : database) :
  (empty_or_absent (CustomerBody.first_name req)
   \/ empty_or_absent (CustomerBody.last_name req)
   \/ empty_or_absent (CustomerBody.phone_number req) ->
   post_customers (Some req) db
   = ({| status := 400;
         body := MessageError "All fields are required."
                              "An unknown error occurred." |}, db))
  /\
  (forall f l p,
     nonempty_text (CustomerBody.first_name req) f ->
     nonempty_text (CustomerBody.last_name req) l ->
     nonempty_text (CustomerBody.phone_number req) p ->
     (forall c, In c (customers db) -> phone_number c <> p) ->
     exists newid,
       (forall c, In c (customers db) -> id c < newid)
       /\ post_customers (Some req) db
          = ({| status := 201;
                body := MessageId "Customer created successfully" newid |},
             {| customers := customers db ++ [mkCustomer newid f l p];
                addresses := addresses db;
                seq_customers := newid;
                seq_addresses := seq_addresses db;
                foreign_keys := foreign_keys db |})).
Proof.
  split.
  - apply post_customers_missing_field.
  - intros f l p Hf Hl Hp Hfresh.
    exists (next_rowid (seq_customers db) (map id (customers db))). split.
    + intros c Hc. apply next_rowid_fresh. apply in_map. exact Hc.
    + apply post_customers_fresh_phone; assumption.
Qed.

Lemma create_validates_then_inserts_witness :
  post_customers (Some (CustomerBody.make (JString "A") JUndefined (JString "123")))
                 open_database
  = ({| status := 400;
        body := MessageError "All fields are required."
                             "An unknown error occurred." |}, open_database)
  /\
  exists newid,
    (forall c, In c (customers open_database) -> id c < newid)
    /\ post_customers (Some (text_customer "A" "B" "123")) open_database
       = ({| status := 201;
             body := MessageId "Customer created successfully" newid |},
          {| customers := customers open_database ++ [mkCustomer newid "A" "B" "123"];
             addresses := addresses open_database;
             seq_customers := newid;
             seq_addresses := seq_addresses open_database;
             foreign_keys := foreign_keys open_database |}).
Proof.
  split.
  - apply (proj1 (create_validates_then_inserts
                    (CustomerBody.make (JString "A") JUndefined (JString "123"))
                    open_database)).
    right. left. left. reflexivity.
  - apply (proj2 (create_validates_then_inserts (text_customer "A" "B" "123")
                    open_database) "A" "B" "123").
    + split; [reflexivity | discriminate].
    + split; [reflexivity | discriminate].
    + split; [reflexivity | discriminate].
    + intros c Hc. destruct Hc.
Defined.

(** C3: when a customer with phone number [p] is stored, a create with
    non-empty fields and the same [p] is answered 500 with the store's
    UNIQUE-constraint error and inserts nothing; and so, of two creates with
    the same phone number, the second is answered 500 and changes nothing. *)
Theorem create_duplicate_phone_fails
  (req : CustomerBody.t) (db : database) (f l p : string) :
  nonempty_text (CustomerBody.first_name req) f ->
  nonempty_text (CustomerBody.last_name req) l ->
  nonempty_text (CustomerBody.phone_number req) p ->
  (phone_stored p db ->
   post_customers (Some req) db
   = ({| status := 500;
         body := MessageError "Error creating customer."
                   "SQLITE_CONSTRAINT: UNIQUE constraint failed: customers.phone_number" |},
      db))
  /\
  (forall (second : CustomerBody.t) (f2 l2 : string),
     nonempty_text (CustomerBody.first_name second) f2 ->
     nonempty_text (CustomerBody.last_name second) l2 ->
     nonempty_text (CustomerBody.phone_number second) p ->
     let db1 := snd (post_customers (Some req) db) in
     post_customers (Some second) db1
     = ({| status := 500;
           body := MessageError "Error creating customer."
                     "SQLITE_CONSTRAINT: UNIQUE constraint failed: customers.phone_number" |},
        db1)).
Proof.
  intros Hf Hl Hp. split.
  - intros Hs. eapply post_customers_stored_phone; eassumption.
  - intros second f2 l2 Hf2 Hl2 Hp2 db1.
    eapply post_customers_stored_phone; try eassumption.
    eapply post_customers_phone_stored_after; eassumption.
Qed.

Lemma create_duplicate_phone_fails_witness :
  let db1 := snd (post_customers (Some (text_customer "A" "B" "123")) open_database) in
  post_customers (Some (text_customer "C" "D" "123")) db1
  = ({| status := 500;
        body := MessageError "Error creating customer."
                  "SQLITE_CONSTRAINT: UNIQUE constraint failed: customers.phone_number" |},
     db1).
Proof.
  refine (proj2 (@create_duplicate_phone_fails (text_customer "A" "B" "123")
                   open_database "A" "B" "123" _ _ _)
                (text_customer "C" "D" "123") "C" "D" _ _ _);
    split; try reflexivity; discriminate.
Defined.

(* ------------------------------------------------------------------ *)
(** ** Listing customers                                                *)
(* ------------------------------------------------------------------ *)

(** Up to 2^53 an integer is its own JavaScript number. *)
Lemma to_number_exact (x : Z) : Z.abs x <= 2 ^ 53 -> to_number x = Finite x.
Proof.
  intros H. unfold to_number, round_magnitude.
  destruct (Z.leb_spec (Z.abs x) (2 ^ 53)) as [_ | C]; [| lia].
  assert (B : 2 ^ 53 < 2 ^ 1024) by (apply Z.pow_lt_mono_r; lia).
  destruct (Z.leb_spec (2 ^ 1024) (Z.abs x)) as [C | _]; [lia |].
  f_equal. destruct x; simpl; reflexivity.
Qed.

Lemma int64_of_exact (x : Z) : Z.abs x <= 2 ^ 53 -> int64 x = true.
Proof.
  intros H. assert (E : 2 ^ 53 = 9007199254740992) by reflexivity.
  unfold int64. apply andb_true_iff. split; apply Z.leb_le; lia.
Qed.

(** The listing in closed form, where JavaScript computes the offset
    exactly: the answer is 200 and nothing is written. *)
Lemma get_customers_eq (req : Query.t) (db : database) :
  let page := default 1 (Query.page req) in
  let limit := default 10 (Query.limit req) in
  let search := default "" (Query.search req) in
  Z.abs page <= 2 ^ 53 -> Z.abs (page - 1) <= 2 ^ 53 -> Z.abs limit <= 2 ^ 53 ->
  Z.abs ((page - 1) * limit) <= 2 ^ 53 ->
  get_customers req db
  = ({| status := 200;
        body := MessageCustomers "Customers fetched successfully"
                  (limit_offset limit ((page - 1) * limit) (matching search db))
                  {| total := count (matching search db);
                     page := Finite page;
                     limit := Finite limit;
                     totalPages := ceil_div (count (matching search db)) limit |} |},
     db).
Proof.
  intros page limit search Hp Hp1 Hl Ho.
  unfold get_customers, count_customers, select_customers. cbv zeta.
  fold page limit search.
  rewrite (to_number_exact page Hp), (to_number_exact limit Hl).
  unfold js_sub, js_mul.
  rewrite (to_number_exact (page - 1) Hp1), (to_number_exact _ Ho).
  rewrite (int64_of_exact limit Hl). cbv [negb].
  assert (E : 2 ^ 53 = 9007199254740992) by reflexivity.
  assert (R : (-9223372036854775808 <? (page - 1) * limit)
              && ((page - 1) * limit <? 9223372036854775808) = true).
  { apply andb_true_iff. split; apply Z.ltb_lt; lia. }
  rewrite R. reflexivity.
Qed.

Lemma round_magnitude_large (a : Z) : 2 ^ 53 < a -> 2 ^ 53 <= round_magnitude a.
Proof.
  intros H. unfold round_magnitude.
  destruct (Z.leb_spec a (2 ^ 53)) as [C | _]; [lia |]. cbv zeta.
  assert (Ha : 0 < a) by lia.
  pose proof (Z.log2_spec a Ha) as [Hlo _].
  assert (H53 : 53 <= Z.log2 a).
  { rewrite <- (Z.log2_pow2 53) by lia. apply Z.log2_le_mono. lia. }
  set (e := Z.log2 a - 52) in *.
  assert (He : 1 <= e) by (unfold e; lia).
  assert (Hpow : 2 ^ Z.log2 a = 2 ^ 52 * 2 ^ e).
  { unfold e. rewrite <- Z.pow_add_r by lia. f_equal. lia. }
  assert (H2e : 2 <= 2 ^ e).
  { change 2 with (2 ^ 1) at 1. apply Z.pow_le_mono_r; lia. }
  assert (Hq : 2 ^ 52 <= a / 2 ^ e).
  { apply Z.div_le_lower_bound; [lia |]. rewrite Z.mul_comm. lia. }
  assert (E52 : 2 ^ 52 = 4503599627370496) by reflexivity.
  assert (E53 : 2 ^ 53 = 9007199254740992) by reflexivity.
  destruct (a mod 2 ^ e <? 2 ^ (e - 1)); [nia |].
  destruct (2 ^ (e - 1) <? a mod 2 ^ e); [nia |].
  destruct (Z.even (a / 2 ^ e)); nia.
Qed.

(** The number of a natural is not below it, up to 2^53. *)
Lemma to_number_at_least (x : Z) :
  0 <= x -> at_least (Z.min x (2 ^ 53)) (to_number x).
Proof.
  intros Hx. destruct (Z.eq_dec x 0) as [-> | N]; [vm_compute; discriminate |].
  unfold to_number. rewrite Z.abs_eq by exact Hx.
  destruct (2 ^ 1024 <=? round_magnitude x).
  - destruct (Z.ltb_spec x 0); [lia | exact I].
  - unfold at_least. rewrite Z.sgn_pos, Z.mul_1_l by lia.
    destruct (Z.le_gt_cases x (2 ^ 53)) as [C | C].
    + unfold round_magnitude. apply Z.leb_le in C as C'. rewrite C'. lia.
    + pose proof (round_magnitude_large C). lia.
Qed.

Lemma at_least_weaken (lb lb' : Z) (n : jsnumber) :
  lb' <= lb -> at_least lb n -> at_least lb' n.
Proof. destruct n; simpl; lia || tauto. Qed.

Lemma js_mul_at_least (la lb bound : Z) (a b : jsnumber) :
  at_least la a -> at_least lb b -> 1 <= la -> 1 <= lb ->
  bound <= la * lb -> bound <= 2 ^ 53 ->
  at_least bound (js_mul a b).
Proof.
  intros Ha Hb Hla Hlb Hbound H53.
  destruct a as [x | | |], b as [y | | |]; simpl in *; try tauto.
  - apply (@at_least_weaken (Z.min (x * y) (2 ^ 53))); [nia |].
    apply to_number_at_least. nia.
  - unfold infinity_times.
    destruct (Z.eqb_spec x 0); [lia |].
    destruct (Z.ltb_spec 0 x); [exact I | lia].
  - unfold infinity_times.
    destruct (Z.eqb_spec y 0); [lia |].
    destruct (Z.ltb_spec 0 y); [exact I | lia].
Qed.

Lemma js_mul_finite (a b : jsnumber) (o : Z) :
  js_mul a b = Finite o ->
  exists x y, a = Finite x /\ b = Finite y /\ to_number (x * y) = Finite o.
Proof.
  destruct a as [x | | |], b as [y | | |]; simpl; try discriminate;
    try (unfold infinity_times;
         repeat match goal with |- context [if ?c then _ else _] => destruct c end;
         discriminate).
  intros H. exists x, y. repeat split. exact H.
Qed.

(** The offset that JavaScript computes is the exact one, or both are
    beyond every table. *)
Lemma computed_offset_cases (page limit o : Z) :
  1 <= page -> 1 <= limit ->
  computed_offset page limit = Finite o ->
  o = (page - 1) * limit
  \/ (2 ^ 53 - 1 <= o /\ 2 ^ 53 - 1 <= (page - 1) * limit).
Proof.
  intros Hp Hl H. unfold computed_offset in H.
  assert (E53 : 2 ^ 53 = 9007199254740992) by reflexivity.
  pose proof (@to_number_at_least limit ltac:(lia)) as HL.
  destruct (Z.le_gt_cases page (2 ^ 53)) as [Cp | Cp].
  - rewrite (to_number_exact page) in H by lia. simpl js_sub in H.
    rewrite (to_number_exact (page - 1)) in H by lia.
    destruct (Z.le_gt_cases ((page - 1) * limit) (2 ^ 53)) as [Co | Co].
    + destruct (Z.eq_dec page 1) as [-> | Np].
      * left. apply js_mul_finite in H.
        destruct H as (x & y & Ex & Ey & Eo). injection Ex as <-.
        simpl in Eo. injection Eo as <-. lia.
      * left. assert (Cl : limit <= 2 ^ 53) by nia.
        rewrite (to_number_exact limit) in H by lia. simpl in H.
        rewrite (to_number_exact ((page - 1) * limit)) in H by lia.
        injection H as <-. reflexivity.
    + right. split; [| lia].
      assert (G : at_least (2 ^ 53 - 1)
                    (js_mul (Finite (page - 1)) (to_number limit))).
      { apply (@js_mul_at_least (page - 1) (Z.min limit (2 ^ 53)) (2 ^ 53 - 1)
                 (Finite (page - 1)) (to_number limit));
          [simpl; lia | exact HL | nia | lia | | lia].
        destruct (Z.le_gt_cases limit (2 ^ 53));
          [rewrite Z.min_l by lia; lia | rewrite Z.min_r by lia; nia]. }
      rewrite H in G. exact G.
  - right. split; [| nia].
    pose proof (@to_number_at_least page ltac:(lia)) as HP.
    rewrite Z.min_r in HP by lia.
    assert (HS : at_least (2 ^ 53 - 1) (js_sub (to_number page) (Finite 1))).
    { destruct (to_number page) as [p | | |]; simpl in HP; try contradiction;
        [| exact I].
      simpl js_sub.
      apply (@at_least_weaken (Z.min (p - 1) (2 ^ 53))); [lia |].
      apply to_number_at_least. lia. }
    assert (G : at_least (2 ^ 53 - 1)
                  (js_mul (js_sub (to_number page) (Finite 1)) (to_number limit))).
    { apply (@js_mul_at_least (2 ^ 53 - 1) 1 (2 ^ 53 - 1)
               (js_sub (to_number page) (Finite 1)) (to_number limit));
        [exact HS | | lia | lia | lia | lia].
      apply (@at_least_weaken (Z.min limit (2 ^ 53))); [lia | exact HL]. }
    rewrite H in G. exact G.
Qed.

(** The listing in closed form, whenever the store accepts the limit and
    the offset. *)
Lemma get_customers_answered (req : Query.t) (db : database) (o : Z) :
  let page := default 1 (Query.page req) in
  let limit := default 10 (Query.limit req) in
  let search := default "" (Query.search req) in
  int64 limit = true ->
  computed_offset page limit = Finite o ->
  - 2 ^ 63 < o < 2 ^ 63 ->
  get_customers req db
  = ({| status := 200;
        body := MessageCustomers "Customers fetched successfully"
                  (limit_offset limit o (matching search db))
                  {| total := count (matching search db);
                     page := to_number page;
                     limit := to_number limit;
                     totalPages :=
                       ceil_quotient (count (matching search db))
                                     (to_number limit) |} |},
     db).
Proof.
  intros page limit search Hl Ho Hrange.
  unfold get_customers, count_customers, select_customers. cbv zeta.
  fold page limit search. fold (computed_offset page limit).
  rewrite Hl, Ho. cbv [negb].
  assert (E : 2 ^ 63 = 9223372036854775808) by reflexivity.
  assert (R : (-9223372036854775808 <? o) && (o <? 9223372036854775808) = true).
  { apply andb_true_iff. split; apply Z.ltb_lt; lia. }
  rewrite R. reflexivity.
Qed.

(** The store refuses a limit outside the integers of 64 bits: the listing
    is answered 500 with the store's datatype mismatch, whatever the page. *)
Lemma get_customers_limit_refused (req : Query.t) (db : database) :
  int64 (default 10 (Query.limit req)) = false ->
  get_customers req db
  = ({| status := 500;
        body := MessageError "Error fetching customers."
                             "SQLITE_MISMATCH: datatype mismatch" |}, db).
Proof.
  intros H. unfold get_customers, count_customers, select_customers. cbv zeta.
  rewrite H. reflexivity.
Qed.

Lemma limit_offset_window {A : Type} (limit offset : Z) (rows : list A) :
  0 <= limit ->
  limit_offset limit offset rows
  = firstn (Z.to_nat limit) (skipn (Z.to_nat offset) rows).
Proof.
  intros H. unfold limit_offset.
  destruct (Z.ltb_spec limit 0); [lia | reflexivity].
Qed.

Lemma ceil_div_finite (a b : Z) :
  0 < b ->
  exists q, ceil_div a b = Finite q /\ b * (q - 1) < a <= b * q.
Proof.
  intros Hb. unfold ceil_div.
  destruct (Z.eqb_spec b 0); [lia |].
  exists (- (- a / b)). split; [reflexivity |].
  pose proof (Z.div_mod (- a) b ltac:(lia)) as Hdm.
  pose proof (Z.mod_pos_bound (- a) b Hb) as Hm.
  nia.
Qed.

(** C4, as the code has it: for [page >= 1] and [limit >= 1] that the
    store accepts, that is a [limit] below 2^63 and an offset
    [(page - 1) * limit] that JavaScript computes as a number below 2^63, on
    a table with fewer than 2^53 matching rows, the listing is answered 200
    with at most [limit] rows, which are the rows at offset
    [(page - 1) * limit] of the matching rows in table order; [total] is the
    number of all matching rows, whatever the page window; and [totalPages]
    is the least integer [q] with [total <= limit * q], that is
    [ceil (total / limit)]. *)
Theorem list_page_window
  (page limit offset : Z) (search : option string) (db : database) :
  1 <= page -> 1 <= limit -> limit < 2 ^ 63 ->
  computed_offset page limit = Finite offset -> offset < 2 ^ 63 ->
  count (matching (default "" search) db) < 2 ^ 53 ->
  let rows_matching := matching (default "" search) db in
  let window :=
    firstn (Z.to_nat limit) (skipn (Z.to_nat ((page - 1) * limit)) rows_matching) in
  exists pages,
    get_customers (Query.make (Some page) (Some limit) search) db
    = ({| status := 200;
          body := MessageCustomers "Customers fetched successfully" window
                    {| total := count rows_matching;
                       page := to_number page;
                       limit := to_number limit;
                       totalPages := Finite pages |} |}, db)
    /\ count window <= limit
    /\ limit * (pages - 1) < count rows_matching <= limit * pages.
Proof.
  intros Hpage Hlimit Hl63 Ho Ho63 Hcount rows_matching window.
  fold rows_matching in Hcount.
  assert (E53 : 2 ^ 53 = 9007199254740992) by reflexivity.
  assert (E63 : 2 ^ 63 = 9223372036854775808) by reflexivity.
  assert (Hc0 : 0 <= count rows_matching) by (unfold count; lia).
  (* the limit as a number *)
  pose proof Ho as Hmul. unfold computed_offset in Hmul.
  apply js_mul_finite in Hmul. destruct Hmul as (x & L & _ & EL & _).
  pose proof (@to_number_at_least limit ltac:(lia)) as HL.
  rewrite EL in HL. simpl in HL.
  assert (HL1 : 0 < L) by lia.
  destruct (ceil_div_finite (count rows_matching) HL1) as (q & Hq & Hbounds).
  (* the offset *)
  destruct (computed_offset_cases Hpage Hlimit Ho) as [Eo | [Bo Be]].
  - (* computed exactly *)
    exists q. split; [| split].
    + rewrite (@get_customers_answered _ db offset); simpl default;
        [| unfold int64; apply andb_true_iff; split; apply Z.leb_le; lia
         | exact Ho | nia].
      rewrite limit_offset_window by lia. fold rows_matching.
      rewrite EL. simpl ceil_quotient. rewrite Hq, Eo. reflexivity.
    + unfold count, window.
      pose proof (firstn_le_length (Z.to_nat limit)
                    (skipn (Z.to_nat ((page - 1) * limit)) rows_matching)).
      lia.
    + destruct (Z.le_gt_cases limit (2 ^ 53)) as [C | C].
      * rewrite (to_number_exact limit) in EL by lia. injection EL as <-.
        exact Hbounds.
      * rewrite Z.min_r in HL by lia.
        assert (Hq01 : q = 0 \/ q = 1) by nia.
        destruct Hq01 as [-> | ->]; lia.
  - (* rounded, and beyond the table in both readings *)
    exists q. split; [| split].
    + rewrite (@get_customers_answered _ db offset); simpl default;
        [| unfold int64; apply andb_true_iff; split; apply Z.leb_le; lia
         | exact Ho | lia].
      rewrite limit_offset_window by lia. fold rows_matching.
      rewrite EL. simpl ceil_quotient. rewrite Hq.
      unfold window. unfold count in Hcount.
      rewrite (skipn_all2 (n := Z.to_nat offset)) by lia.
      rewrite (skipn_all2 (n := Z.to_nat ((page - 1) * limit))) by lia.
      reflexivity.
    + unfold count, window.
      pose proof (firstn_le_length (Z.to_nat limit)
                    (skipn (Z.to_nat ((page - 1) * limit)) rows_matching)).
      lia.
    + destruct (Z.le_gt_cases limit (2 ^ 53)) as [C | C].
      * rewrite (to_number_exact limit) in EL by lia. injection EL as <-.
        exact Hbounds.
      * rewrite Z.min_r in HL by lia.
        assert (Hq01 : q = 0 \/ q = 1) by nia.
        destruct Hq01 as [-> | ->]; lia.
Qed.

Lemma list_page_window_witness :
  let db := {| customers := [ mkCustomer 1 "A" "B" "1"; mkCustomer 2 "C" "D" "2";
                              mkCustomer 3 "E" "F" "3" ];
               addresses := []; seq_customers := 3; seq_addresses := 0;
               foreign_keys := false |} in
  exists pages,
    get_customers (Query.make (Some 2) (Some 2) None) db
    = ({| status := 200;
          body := MessageCustomers "Customers fetched successfully"
                    [mkCustomer 3 "E" "F" "3"]
                    {| total := 3; page := Finite 2; limit := Finite 2;
                       totalPages := Finite pages |} |}, db)
    /\ count [mkCustomer 3 "E" "F" "3"] <= 2
    /\ 2 * (pages - 1) < 3 <= 2 * pages.
Proof.
  intros db.
  apply (@list_page_window 2 2 2 None db);
    try reflexivity; try (vm_compute; discriminate).
Defined.

(** C4, as the claim has it (every [page >= 1] and [limit >= 1]), fails:
    the ranges are not validated, and the store refuses a limit or an
    offset that is not an integer of 64 bits.  With [page = 1] and
    [limit = 2^63] the listing is answered 500: no rows, no [total], no
    [totalPages]; and so it is with [page = 2^63 + 1] and [limit = 1], where
    the offset is 2^63. *)
Lemma list_refuses_beyond_64_bits :
  (1 <= 1 /\ 1 <= 9223372036854775808
   /\ get_customers (Query.make (Some 1) (Some 9223372036854775808) None)
                    three_customers
      = ({| status := 500;
            body := MessageError "Error fetching customers."
                                 "SQLITE_MISMATCH: datatype mismatch" |},
         three_customers))
  /\
  (1 <= 9223372036854775809 /\ 1 <= 1
   /\ get_customers (Query.make (Some 9223372036854775809) (Some 1) None)
                    three_customers
      = ({| status := 500;
            body := MessageError "Error fetching customers."
                                 "SQLITE_MISMATCH: datatype mismatch" |},
         three_customers)).
Proof.
  split; (split; [lia |]); (split; [lia |]).
  - apply get_customers_limit_refused. reflexivity.
  - vm_compute. reflexivity.
Qed.

(** C10: a parameter the query omits takes its default, [page = 1],
    [limit = 10], [search = ''], so a bare [GET /api/customers] is answered
    with the first ten rows of the whole table (offset 0, no filter). *)
Theorem list_defaults (req : Query.t) (db : database) :
  get_customers req db
  = get_customers
      (Query.make (Some (default 1 (Query.page req)))
                  (Some (default 10 (Query.limit req)))
                  (Some (default "" (Query.search req)))) db
  /\ get_customers (Query.make None None None) db
     = ({| status := 200;
           body := MessageCustomers "Customers fetched successfully"
                     (firstn 10 (customers db))
                     {| total := count (customers db);
                        page := Finite 1;
                        limit := Finite 10;
                        totalPages := ceil_div (count (customers db)) 10 |} |}, db)
  /\ (List.length (firstn 10 (customers db)) <= 10)%nat.
Proof.
  split; [reflexivity |]. split.
  - assert (E : 2 ^ 53 = 9007199254740992) by reflexivity.
    rewrite get_customers_eq; simpl default; try (simpl; lia).
    assert (M : matching "" db = customers db).
    { unfold matching, search_pattern. simpl.
      induction (customers db) as [| c rows IH]; simpl; [reflexivity |].
      rewrite IH. reflexivity. }
    rewrite M. reflexivity.
  - apply firstn_le_length.
Qed.

(* ------------------------------------------------------------------ *)
(** ** Searching: what [LIKE '%search%'] selects                        *)
(* ------------------------------------------------------------------ *)

Lemma like_percent pat t :
  like_text (String "%" pat) t = try_boundaries (like_text pat) false t.
Proof. reflexivity. Qed.

Lemma like_plain p pat t :
  wildcard p = false ->
  like_text (String p pat) t
  = match t with
    | EmptyString => false
    | String c t' => char_eq_nocase p c && like_text pat t'
    end.
Proof.
  unfold wildcard. intros H. apply orb_false_iff in H. destruct H as [H1 H2].
  destruct t; simpl; rewrite H1, H2; reflexivity.
Qed.

Lemma try_boundaries_always (k : string -> bool) :
  k EmptyString = true -> forall t swallow, try_boundaries k swallow t = true.
Proof.
  intros Hk. induction t as [| b t IH]; intros swallow; simpl; [exact Hk |].
  destruct (swallow && continuation b); [apply IH |].
  rewrite IH. apply orb_true_r.
Qed.

Lemma like_percent_only t : like_text "%" t = true.
Proof. rewrite like_percent. apply try_boundaries_always. reflexivity. Qed.






Lemma try_boundaries_ext (k k' : string -> bool) :
  (forall t, k t = k' t) ->
  forall t swallow, try_boundaries k swallow t = try_boundaries k' swallow t.
Proof.
  intros H. induction t as [| b t IH]; intros swallow; simpl; [apply H |].
  rewrite !IH, H. reflexivity.
Qed.


Lemma until_nul_free s : nul_free s = true -> until_nul s = s.
Proof.
  unfold nul_free. induction s as [| c s IH]; simpl; [reflexivity |].
  intros H. apply andb_true_iff in H. destruct H as [Hc H].
  apply negb_true_iff in Hc. rewrite Hc, (IH H). reflexivity.
Qed.













Lemma filter_keeps_all {A : Type} (keep : A -> bool) (rows : list A) :
  (forall x, keep x = true) -> filter keep rows = rows.
Proof.
  intros H. induction rows as [| x rows IH]; simpl; [reflexivity |].
  rewrite H, IH. reflexivity.
Qed.

(** The answer of the listing depends on the table through the matching
    rows only. *)
Lemma get_customers_fst_matching (req req' : Query.t) (db db' : database) :
  Query.page req = Query.page req' -> Query.limit req = Query.limit req' ->
  matching (default "" (Query.search req)) db
  = matching (default "" (Query.search req')) db' ->
  fst (get_customers req db) = fst (get_customers req' db').
Proof.
  intros Hp Hl Hm. unfold get_customers, count_customers, select_customers.
  cbv zeta. unfold matching, search_pattern in Hm. rewrite Hm, Hp, Hl.
  destruct (negb _); [reflexivity |].
  destruct (js_mul _ _); try reflexivity.
  destruct (_ && _); reflexivity.
Qed.




(* ------------------------------------------------------------------ *)
(** ** Updating a customer                                              *)
(* ------------------------------------------------------------------ *)

(** C6: an update of an id that no customer row has, with three non-empty
    fields, is answered 404, and the store afterwards is the store before:
    no row is created and none is modified. *)
Theorem update_unknown_customer_not_found
  (i : Z) (req : CustomerBody.t) (db : database) (f l p : string) :
  nonempty_text (CustomerBody.first_name req) f ->
  nonempty_text (CustomerBody.last_name req) l ->
  nonempty_text (CustomerBody.phone_number req) p ->
  (forall c, In c (customers db) -> id c <> i) ->
  put_customer i (Some req) db
  = ({| status := 404;
        body := MessageError "Customer not found or no changes made."
                             "An unknown error occurred." |}, db).
Proof.
  intros Hf Hl Hp Hi. unfold put_customer.
  rewrite (nonempty_text_truthy Hf), (nonempty_text_truthy Hl),
    (nonempty_text_truthy Hp). simpl.
  unfold update_customer. rewrite (filter_id_nil Hi). reflexivity.
Qed.

Lemma update_unknown_customer_not_found_witness :
  put_customer 7 (Some (text_customer "A" "B" "123")) three_customers
  = ({| status := 404;
        body := MessageError "Customer not found or no changes made."
                             "An unknown error occurred." |}, three_customers).
Proof.
  apply (@update_unknown_customer_not_found 7 (text_customer "A" "B" "123")
           three_customers "A" "B" "123").
  - split; [reflexivity | discriminate].
  - split; [reflexivity | discriminate].
  - split; [reflexivity | discriminate].
  - intros c Hc. simpl in Hc.
    destruct Hc as [<- | [<- | [<- | []]]]; simpl; lia.
Defined.

(* ------------------------------------------------------------------ *)
(** ** Creating an address                                              *)
(* ------------------------------------------------------------------ *)

Section AddressFields.

Variable req : AddressBody.t.
Variables d c s p : string.
Hypothesis text_d : nonempty_text (AddressBody.address_details req) d.
Hypothesis text_c : nonempty_text (AddressBody.city req) c.
Hypothesis text_s : nonempty_text (AddressBody.state req) s.
Hypothesis text_p : nonempty_text (AddressBody.pin_code req) p.

Lemma post_addresses_reaches_store (cid : Z) (db : database) :
  post_addresses cid (Some req) db
  = match insert_address cid (SqlText d) (SqlText c) (SqlText s) (SqlText p) db with
    | inl err => (sendError 500 "Error adding address." (Some err), db)
    | inr (this, db') =>
        ({| status := 201;
            body := MessageId "Address added successfully" (lastID this) |}, db')
    end.
Proof.
  unfold post_addresses.
  rewrite (nonempty_text_truthy text_d), (nonempty_text_truthy text_c),
    (nonempty_text_truthy text_s), (nonempty_text_truthy text_p). simpl.
  destruct text_d as [-> _], text_c as [-> _], text_s as [-> _], text_p as [-> _].
  reflexivity.
Qed.

Lemma put_address_reaches_store (i : Z) (db : database) :
  put_address i (Some req) db
  = match update_address (SqlText d) (SqlText c) (SqlText s) (SqlText p) i db with
    | inl err => (sendError 500 "Error updating address." (Some err), db)
    | inr (this, db') =>
        if changes this =? 0
        then (sendError 404 "Address not found or no changes made." None, db')
        else ({| status := 200; body := Message "Address updated successfully" |},
              db')
    end.
Proof.
  unfold put_address.
  rewrite (nonempty_text_truthy text_d), (nonempty_text_truthy text_c),
    (nonempty_text_truthy text_s), (nonempty_text_truthy text_p). simpl.
  destruct text_d as [-> _], text_c as [-> _], text_s as [-> _], text_p as [-> _].
  reflexivity.
Qed.

End AddressFields.

(** C7: on the connection of [app.js] (foreign keys not enforced), an
    address create with four non-empty text fields is answered 201 with a
    new id for every [customer_id], whether or not a customer row has that
    id: the [customers] table is not consulted, and the row is appended
    with the [customer_id] as given. *)
Theorem address_create_does_not_check_customer
  (cid : Z) (req : AddressBody.t) (db : database) (d c s p : string) :
  foreign_keys db = false ->
  nonempty_text (AddressBody.address_details req) d ->
  nonempty_text (AddressBody.city req) c ->
  nonempty_text (AddressBody.state req) s ->
  nonempty_text (AddressBody.pin_code req) p ->
  exists newid,
    (forall a, In a (addresses db) -> address_id a < newid)
    /\ post_addresses cid (Some req) db
       = ({| status := 201; body := MessageId "Address added successfully" newid |},
          {| customers := customers db;
             addresses := addresses db ++ [mkAddress newid cid d c s p];
             seq_customers := seq_customers db;
             seq_addresses := newid;
             foreign_keys := false |}).
Proof.
  intros Hfk Hd Hc Hs Hp.
  exists (next_rowid (seq_addresses db) (map address_id (addresses db))). split.
  - intros a Ha. apply next_rowid_fresh. apply in_map. exact Ha.
  - rewrite (@post_addresses_reaches_store req d c s p Hd Hc Hs Hp).
    unfold insert_address. simpl. rewrite Hfk. reflexivity.
Qed.

Lemma address_create_does_not_check_customer_witness :
  customers open_database = []
  /\ exists newid,
       (forall a, In a (addresses open_database) -> address_id a < newid)
       /\ post_addresses 42 (Some (text_address "1 Main St" "Pune" "MH" "411001"))
                         open_database
          = ({| status := 201;
                body := MessageId "Address added successfully" newid |},
             {| customers := customers open_database;
                addresses := addresses open_database
                             ++ [mkAddress newid 42 "1 Main St" "Pune" "MH" "411001"];
                seq_customers := seq_customers open_database;
                seq_addresses := newid;
                foreign_keys := false |}).
Proof.
  split; [reflexivity |].
  apply (@address_create_does_not_check_customer 42
           (text_address "1 Main St" "Pune" "MH" "411001") open_database
           "1 Main St" "Pune" "MH" "411001").
  - reflexivity.
  - split; [reflexivity | discriminate].
  - split; [reflexivity | discriminate].
  - split; [reflexivity | discriminate].
  - split; [reflexivity | discriminate].
Defined.

(* ------------------------------------------------------------------ *)
(** ** Updating an address                                              *)
(* ------------------------------------------------------------------ *)

Lemma rewrite_address_others i (d c s p : string) (rows : list address) :
  (forall a, In a rows -> address_id a <> i) ->
  map (rewrite_address i d c s p) rows = rows.
Proof.
  intros H. induction rows as [| x rows IH]; simpl; [reflexivity |].
  unfold rewrite_address at 1.
  destruct (Z.eqb_spec (address_id x) i) as [E | _].
  - exfalso. apply (H x); [left; reflexivity | exact E].
  - rewrite IH; [reflexivity |]. intros a Ha. apply H. right. exact Ha.
Qed.

(** Under the primary key, the [UPDATE] rewrites one row in place. *)
Lemma rewrite_address_single i (d c s p : string) (rows : list address) (a : address) :
  NoDup (map address_id rows) ->
  In a rows -> address_id a = i ->
  exists before after,
    rows = (before ++ a :: after)%list
    /\ map (rewrite_address i d c s p) rows
       = (before ++ mkAddress i (customer_id a) d c s p :: after)%list.
Proof.
  intros Hnd Hin Hi. induction rows as [| x rows IH]; [contradiction |].
  simpl in Hnd. apply NoDup_cons_iff in Hnd. destruct Hnd as [Hx Hnd].
  destruct (Z.eqb_spec (address_id x) i) as [E | N].
  - assert (Hax : a = x).
    { destruct Hin as [Hin | Hin]; [symmetry; exact Hin |].
      exfalso. apply Hx. rewrite E, <- Hi. apply in_map. exact Hin. }
    subst a. exists [], rows. split; [reflexivity |]. simpl.
    unfold rewrite_address at 1. rewrite E, Z.eqb_refl.
    rewrite rewrite_address_others; [reflexivity |].
    intros b Hb Eb. apply Hx. rewrite E, <- Eb. apply in_map. exact Hb.
  - destruct Hin as [Hin | Hin]; [subst x; contradiction |].
    destruct (IH Hnd Hin) as (before & after & Hrows & Hmap).
    exists (x :: before), after. split; [simpl; rewrite Hrows; reflexivity |].
    simpl. rewrite Hmap. unfold rewrite_address at 1.
    destruct (Z.eqb_spec (address_id x) i); [contradiction | reflexivity].
Qed.

Lemma filter_address_hit i (rows : list address) (a : address) :
  In a rows -> address_id a = i ->
  exists x hit, filter (fun r => address_id r =? i) rows = x :: hit.
Proof.
  intros Hin Hi.
  destruct (filter (fun r => address_id r =? i) rows) as [| x hit] eqn:E.
  - exfalso.
    assert (Ha : In a (filter (fun r => address_id r =? i) rows)).
    { apply filter_In. split; [exact Hin | apply Z.eqb_eq; exact Hi]. }
    rewrite E in Ha. contradiction.
  - exists x, hit. reflexivity.
Qed.

(** The update of an existing address in closed form, on any table. *)
Lemma put_address_existing
  (i : Z) (req : AddressBody.t) (db : database) (d c s p : string) (a : address) :
  nonempty_text (AddressBody.address_details req) d ->
  nonempty_text (AddressBody.city req) c ->
  nonempty_text (AddressBody.state req) s ->
  nonempty_text (AddressBody.pin_code req) p ->
  In a (addresses db) -> address_id a = i ->
  put_address i (Some req) db
  = ({| status := 200; body := Message "Address updated successfully" |},
     {| customers := customers db;
        addresses := map (rewrite_address i d c s p) (addresses db);
        seq_customers := seq_customers db;
        seq_addresses := seq_addresses db;
        foreign_keys := foreign_keys db |}).
Proof.
  intros Hd Hc Hs Hp Hin Hi.
  rewrite (@put_address_reaches_store req d c s p Hd Hc Hs Hp).
  unfold update_address.
  destruct (@filter_address_hit i (addresses db) a Hin Hi) as (x & hit & E). rewrite E. simpl.
  unfold count. simpl. reflexivity.
Qed.

(** C9: the update of an existing address rewrites the four text fields of
    the one row with that id, in place: that row keeps its [id] and its
    [customer_id], the rows before and after it are the same rows, and the
    [customers] table is the same table. *)
Theorem address_update_rewrites_one_row
  (i : Z) (req : AddressBody.t) (db : database) (d c s p : string) (a : address) :
  nonempty_text (AddressBody.address_details req) d ->
  nonempty_text (AddressBody.city req) c ->
  nonempty_text (AddressBody.state req) s ->
  nonempty_text (AddressBody.pin_code req) p ->
  NoDup (map address_id (addresses db)) ->
  In a (addresses db) -> address_id a = i ->
  exists before after,
    addresses db = (before ++ a :: after)%list
    /\ put_address i (Some req) db
       = ({| status := 200; body := Message "Address updated successfully" |},
          {| customers := customers db;
             addresses := (before ++ mkAddress i (customer_id a) d c s p :: after)%list;
             seq_customers := seq_customers db;
             seq_addresses := seq_addresses db;
             foreign_keys := foreign_keys db |}).
Proof.
  intros Hd Hc Hs Hp Hnd Hin Hi.
  destruct (@rewrite_address_single i d c s p (addresses db) a Hnd Hin Hi)
    as (before & after & Hrows & Hmap).
  exists before, after. split; [exact Hrows |].
  rewrite (@put_address_existing i req db d c s p a Hd Hc Hs Hp Hin Hi), Hmap. reflexivity.
Qed.

Lemma address_update_rewrites_one_row_witness :
  exists before after,
    addresses two_addresses
    = (before ++ mkAddress 2 1 "2 Hill Rd" "Agra" "UP" "282001" :: after)%list
    /\ put_address 2 (Some (text_address "9 Lake Vw" "Kochi" "KL" "682001")) two_addresses
       = ({| status := 200; body := Message "Address updated successfully" |},
          {| customers := customers two_addresses;
             addresses :=
               (before ++ mkAddress 2 1 "9 Lake Vw" "Kochi" "KL" "682001" :: after)%list;
             seq_customers := seq_customers two_addresses;
             seq_addresses := seq_addresses two_addresses;
             foreign_keys := foreign_keys two_addresses |}).
Proof.
  apply (@address_update_rewrites_one_row 2
           (text_address "9 Lake Vw" "Kochi" "KL" "682001") two_addresses
           "9 Lake Vw" "Kochi" "KL" "682001"
           (mkAddress 2 1 "2 Hill Rd" "Agra" "UP" "282001")).
  - split; [reflexivity | discriminate].
  - split; [reflexivity | discriminate].
  - split; [reflexivity | discriminate].
  - split; [reflexivity | discriminate].
  - simpl. repeat constructor; simpl; intuition lia.
  - simpl. right. left. reflexivity.
  - reflexivity.
Defined.

(* ------------------------------------------------------------------ *)
(** ** Primary keys                                                     *)
(* ------------------------------------------------------------------ *)

Lemma NoDup_next_rowid seq (ids : list Z) :
  NoDup ids -> NoDup (ids ++ [next_rowid seq ids]).
Proof.
  intros H. apply NoDup_app; [exact H | repeat constructor; intros [] |].
  intros x Hx [<- | []]. apply (next_rowid_fresh seq) in Hx. lia.
Qed.

Lemma NoDup_map_filter {A : Type} (key : A -> Z) (keep : A -> bool) (rows : list A) :
  NoDup (map key rows) -> NoDup (map key (filter keep rows)).
Proof.
  induction rows as [| x rows IH]; simpl; intros H; [constructor |].
  apply NoDup_cons_iff in H. destruct H as [Hx H].
  destruct (keep x); simpl; [| exact (IH H)].
  constructor; [| exact (IH H)].
  intros Hin. apply Hx. apply in_map_iff in Hin. destruct Hin as (y & Ey & Hy).
  apply filter_In in Hy. rewrite <- Ey. apply in_map. apply Hy.
Qed.

Lemma map_id_update (i : Z) (f l p : string) (rows : list customer) :
  map id (map (fun c => if id c =? i then mkCustomer (id c) f l p else c) rows)
  = map id rows.
Proof.
  rewrite map_map. apply map_ext. intros c. destruct (id c =? i); reflexivity.
Qed.

Lemma map_address_id_update (i : Z) (d c s p : string) (rows : list address) :
  map address_id
      (map (fun a => if address_id a =? i
                     then mkAddress (address_id a) (customer_id a) d c s p
                     else a) rows)
  = map address_id rows.
Proof.
  rewrite map_map. apply map_ext. intros a. destruct (address_id a =? i); reflexivity.
Qed.

(** Every handler keeps the primary keys unique. *)
Lemma route_keys_unique r db : keys_unique db -> keys_unique (snd (route r db)).
Proof.
  intros [Hc Ha].
  destruct r as [[req |] | req | i | i [req |] | i | i [req |] | i | i [req |] | i];
    cbn [route]; try (split; assumption).
  - unfold post_customers, insert_customer. split_handler; simpl;
      try (split; assumption).
    split; [| exact Ha]. simpl. rewrite map_app. simpl.
    apply NoDup_next_rowid. exact Hc.
  - rewrite get_customers_snd. split; assumption.
  - unfold get_customer, select_customer. split_handler; split; assumption.
  - unfold put_customer, update_customer. split_handler; simpl;
      try (split; assumption);
      (split; [| exact Ha]; simpl; rewrite map_id_update; exact Hc).
  - unfold delete_customers, delete_customer; simpl. split_handler; simpl;
      (split; [apply NoDup_map_filter; exact Hc |]);
      try exact Ha; apply NoDup_map_filter; exact Ha.
  - unfold post_addresses, insert_address. split_handler; simpl;
      try (split; assumption).
    split; [exact Hc |]. simpl. rewrite map_app. simpl.
    apply NoDup_next_rowid. exact Ha.
  - unfold put_address, update_address. split_handler; simpl;
      try (split; assumption);
      (split; [exact Hc |]; simpl; rewrite map_address_id_update; exact Ha).
  - unfold delete_addresses, delete_address; simpl. split_handler; simpl;
      (split; [exact Hc | apply NoDup_map_filter; exact Ha]).
Qed.

(** So the hypothesis of key uniqueness holds of every database the
    service reaches from a fresh file. *)
Lemma serve_keys_unique rs : keys_unique (snd (serve rs open_database)).
Proof.
  assert (G : forall db, keys_unique db -> keys_unique (snd (serve rs db))).
  { induction rs as [| r rs IH]; intros db H; [exact H |].
    rewrite serve_snd_cons. apply IH. apply route_keys_unique. exact H. }
  apply G. split; constructor.
Qed.

(* ------------------------------------------------------------------ *)
(** ** Non-empty text columns                                           *)
(* ------------------------------------------------------------------ *)

Lemma Forall_filter {A : Type} (P : A -> Prop) (keep : A -> bool) (rows : list A) :
  Forall P rows -> Forall P (filter keep rows).
Proof.
  rewrite !Forall_forall. intros H x Hx. apply H. apply filter_In in Hx. apply Hx.
Qed.

Lemma Forall_update {A : Type} (P : A -> Prop) (f : A -> A) (rows : list A) :
  (forall x, P x -> P (f x)) -> Forall P rows -> Forall P (map f rows).
Proof.
  intros Hf H. induction H; simpl; constructor; auto.
Qed.

Lemma decimal_nonempty (n : Z) : decimal n <> "".
Proof.
  unfold decimal. destruct n as [| p | p]; simpl; try discriminate.
  pose proof (Unsigned.to_uint_nonnil p) as H.
  destruct (Pos.to_uint p); [contradiction | ..]; discriminate.
Qed.

(** What the store receives for a field that passed the presence check is a
    text, and not the empty one: a non-empty string is stored as it is, a
    number other than zero and [true] as their decimal text, an array or an
    object as ["[object Object]"]. *)
Lemma truthy_text (v : jsvalue) :
  truthy v = true -> exists s, text_not_null (bind v) = Some s /\ s <> "".
Proof.
  destruct v as [| | b | n | s | l | l]; simpl; intros H; try discriminate H.
  - destruct b; [| discriminate H]. eexists. split; [reflexivity | discriminate].
  - destruct (int32 (integer_value n)); simpl; eexists; (split; [reflexivity |]).
    + apply decimal_nonempty.
    + pose proof (decimal_nonempty (integer_value n)).
      destruct (decimal (integer_value n)); [contradiction | discriminate].
  - exists s. split; [reflexivity |].
    destruct (String.eqb_spec s "") as [E | N]; [discriminate H | exact N].
  - eexists. split; [reflexivity | discriminate].
  - eexists. split; [reflexivity | discriminate].
Qed.

(** Every handler keeps empty text out of the tables, whatever the request. *)
Lemma route_keeps_texts r db :
  texts_nonempty db -> texts_nonempty (snd (route r db)).
Proof.
  intros [Hc Ha].
  destruct r as [[req |] | req | i | i [req |] | i | i [req |] | i | i [req |] | i];
    cbn [route]; try (split; assumption).
  - unfold post_customers.
    destruct (truthy (CustomerBody.first_name req)) eqn:V1;
      destruct (truthy (CustomerBody.last_name req)) eqn:V2;
      destruct (truthy (CustomerBody.phone_number req)) eqn:V3;
      simpl; try (split; assumption).
    destruct (truthy_text _ V1) as (s1 & E1 & N1).
    destruct (truthy_text _ V2) as (s2 & E2 & N2).
    destruct (truthy_text _ V3) as (s3 & E3 & N3).
    unfold insert_customer. rewrite E1, E2, E3.
    destruct (existsb _ _); simpl; [split; assumption |].
    split; [| exact Ha]. simpl. apply Forall_app. split; [exact Hc |].
    repeat constructor; assumption.
  - rewrite get_customers_snd. split; assumption.
  - unfold get_customer, select_customer. destruct (find _ _); split; assumption.
  - unfold put_customer.
    destruct (truthy (CustomerBody.first_name req)) eqn:V1;
      destruct (truthy (CustomerBody.last_name req)) eqn:V2;
      destruct (truthy (CustomerBody.phone_number req)) eqn:V3;
      simpl; try (split; assumption).
    destruct (truthy_text _ V1) as (s1 & E1 & N1).
    destruct (truthy_text _ V2) as (s2 & E2 & N2).
    destruct (truthy_text _ V3) as (s3 & E3 & N3).
    unfold update_customer. cbv zeta. rewrite E1, E2, E3.
    destruct (filter _ _); simpl; [split; assumption |].
    destruct (existsb _ _); simpl; [split; assumption |].
    split; [| exact Ha]. simpl. apply Forall_update; [| exact Hc].
    intros row Prow. destruct (id row =? i); [| exact Prow].
    repeat split; assumption.
  - unfold delete_customers, delete_customer; simpl.
    destruct (count _ =? 0); simpl;
      (split; [apply Forall_filter; exact Hc |]);
      destruct (foreign_keys db); simpl; try exact Ha;
      apply Forall_filter; exact Ha.
  - unfold post_addresses.
    destruct (truthy (AddressBody.address_details req)) eqn:V1;
      destruct (truthy (AddressBody.city req)) eqn:V2;
      destruct (truthy (AddressBody.state req)) eqn:V3;
      destruct (truthy (AddressBody.pin_code req)) eqn:V4;
      simpl; try (split; assumption).
    destruct (truthy_text _ V1) as (s1 & E1 & N1).
    destruct (truthy_text _ V2) as (s2 & E2 & N2).
    destruct (truthy_text _ V3) as (s3 & E3 & N3).
    destruct (truthy_text _ V4) as (s4 & E4 & N4).
    unfold insert_address. rewrite E1, E2, E3, E4.
    destruct (foreign_keys db && _); simpl; [split; assumption |].
    split; [exact Hc |]. simpl. apply Forall_app. split; [exact Ha |].
    repeat constructor; assumption.
  - unfold put_address.
    destruct (truthy (AddressBody.address_details req)) eqn:V1;
      destruct (truthy (AddressBody.city req)) eqn:V2;
      destruct (truthy (AddressBody.state req)) eqn:V3;
      destruct (truthy (AddressBody.pin_code req)) eqn:V4;
      simpl; try (split; assumption).
    destruct (truthy_text _ V1) as (s1 & E1 & N1).
    destruct (truthy_text _ V2) as (s2 & E2 & N2).
    destruct (truthy_text _ V3) as (s3 & E3 & N3).
    destruct (truthy_text _ V4) as (s4 & E4 & N4).
    unfold update_address. cbv zeta. rewrite E1, E2, E3, E4.
    destruct (filter _ _); simpl; [split; assumption |].
    split; [exact Hc |]. simpl. apply Forall_update; [| exact Ha].
    intros row Prow. destruct (address_id row =? i); [| exact Prow].
    repeat split; assumption.
  - unfold delete_addresses, delete_address; simpl.
    destruct (count _ =? 0); simpl;
      (split; [exact Hc | apply Forall_filter; exact Ha]).
Qed.

(** The validation does keep empty text out of the tables for requests
    whose fields are JSON strings. *)
Lemma route_texts_nonempty r db :
  text_request r -> texts_nonempty db -> texts_nonempty (snd (route r db)).
Proof. intros _. apply route_keeps_texts. Qed.

(** C8: no request writes an empty text field.  If every customer row has
    a non-empty [first_name], [last_name] and [phone_number] and every
    address row a non-empty [address_details], [city], [state] and
    [pin_code], the same holds after any request to any route, whatever JSON
    values the body carries and also when there is no body: a field that
    passes the presence check reaches the store as a non-empty text, and
    the other requests write no text. *)
Theorem writes_keep_texts_nonempty (r : request) (db : database) :
  texts_nonempty db -> texts_nonempty (snd (route r db)).
Proof. apply route_keeps_texts. Qed.

Lemma writes_keep_texts_nonempty_witness :
  texts_nonempty open_database
  /\ texts_nonempty
       (snd (route (POST_customers
                      (Some (CustomerBody.make (JArray []) (JString "B")
                                               (JString "123"))))
                   open_database)).
Proof.
  assert (H : texts_nonempty open_database) by (split; constructor).
  split; [exact H |].
  exact (@writes_keep_texts_nonempty
           (POST_customers
              (Some (CustomerBody.make (JArray []) (JString "B") (JString "123"))))
           open_database H).
Defined.

(* ------------------------------------------------------------------ *)
(** ** Requests that fail                                               *)
(* ------------------------------------------------------------------ *)

Lemma database_eta db :
  {| customers := customers db;
     addresses := addresses db;
     seq_customers := seq_customers db;
     seq_addresses := seq_addresses db;
     foreign_keys := foreign_keys db |} = db.
Proof. destruct db. reflexivity. Qed.

Lemma filter_none_keeps_all {A : Type} (hit : A -> bool) (rows : list A) :
  filter hit rows = [] -> filter (fun x => negb (hit x)) rows = rows.
Proof.
  induction rows as [| x rows IH]; simpl; [reflexivity |].
  destruct (hit x); simpl; [discriminate |].
  intros H. rewrite (IH H). reflexivity.
Qed.

(** A [DELETE] that hits no row leaves the database as it was. *)
Lemma delete_customer_no_hit i db :
  filter (fun c => id c =? i) (customers db) = [] ->
  delete_customer i db = inr ({| lastID := seq_customers db; changes := 0 |}, db).
Proof.
  intros H. unfold delete_customer. rewrite H. simpl.
  rewrite andb_false_r. rewrite (filter_none_keeps_all _ _ H).
  rewrite database_eta. reflexivity.
Qed.

Lemma delete_address_no_hit i db :
  filter (fun a => address_id a =? i) (addresses db) = [] ->
  delete_address i db = inr ({| lastID := seq_addresses db; changes := 0 |}, db).
Proof.
  intros H. unfold delete_address. rewrite H. simpl.
  rewrite (filter_none_keeps_all _ _ H). rewrite database_eta. reflexivity.
Qed.

(** X1: a request that is not answered 200 or 201 changes nothing: after a
    400, a 404 or a 500 the database is the database before the request,
    whatever the route. *)
Theorem failed_request_changes_nothing (r : request) (db : database) :
  status (fst (route r db)) <> 200 ->
  status (fst (route r db)) <> 201 ->
  snd (route r db) = db.
Proof.
  destruct r as [[req |] | req | i | i [req |] | i | i [req |] | i | i [req |] | i];
    cbn [route]; try (intros; reflexivity).
  - unfold post_customers, insert_customer. split_handler; simpl; intros; congruence.
  - intros. apply get_customers_snd.
  - unfold get_customer, select_customer. split_handler; reflexivity.
  - unfold put_customer, update_customer.
    destruct (negb _ || _ || _); [intros; reflexivity |].
    destruct (filter _ _) as [| x hit]; [intros; reflexivity |].
    repeat match goal with
           | |- context [match text_not_null ?v with _ => _ end] =>
               destruct (text_not_null v)
           end; try (intros; reflexivity).
    destruct (existsb _ _); [intros; reflexivity |].
    unfold count. simpl. intros; congruence.
  - unfold delete_customers.
    destruct (filter (fun c => id c =? i) (customers db)) as [| x hit] eqn:E.
    + rewrite (delete_customer_no_hit _ _ E). reflexivity.
    + unfold delete_customer. rewrite E. unfold count. simpl. intros; congruence.
  - unfold post_addresses, insert_address. split_handler; simpl; intros; congruence.
  - unfold put_address, update_address.
    destruct (negb _ || _ || _ || _); [intros; reflexivity |].
    destruct (filter _ _) as [| x hit]; [intros; reflexivity |].
    repeat match goal with
           | |- context [match text_not_null ?v with _ => _ end] =>
               destruct (text_not_null v)
           end; try (intros; reflexivity).
    unfold count. simpl. intros; congruence.
  - unfold delete_addresses.
    destruct (filter (fun a => address_id a =? i) (addresses db)) as [| x hit] eqn:E.
    + rewrite (delete_address_no_hit _ _ E). reflexivity.
    + unfold delete_address. rewrite E. unfold count. simpl. intros; congruence.
Qed.

Lemma failed_request_changes_nothing_witness :
  snd (route (DELETE_customer 7) sample_store) = sample_store
  /\ snd (route (POST_customers (Some (text_customer "Cy" "Orr" "5550100"))) sample_store)
     = sample_store.
Proof.
  split.
  - apply failed_request_changes_nothing; vm_compute; discriminate.
  - apply failed_request_changes_nothing; vm_compute; discriminate.
Defined.

(* ------------------------------------------------------------------ *)
(** ** Reading a customer back                                          *)
(* ------------------------------------------------------------------ *)

Lemma find_id_none i (rows : list customer) :
  (forall c, In c rows -> id c <> i) -> find (fun c => id c =? i) rows = None.
Proof.
  intros H. induction rows as [| x rows IH]; simpl; [reflexivity |].
  destruct (Z.eqb_spec (id x) i) as [E | _].
  - exfalso. apply (H x); [left; reflexivity | exact E].
  - apply IH. intros c Hc. apply H. right. exact Hc.
Qed.

Lemma find_id_appended i (rows : list customer) (x : customer) :
  (forall c, In c rows -> id c <> i) -> id x = i ->
  find (fun c => id c =? i) (rows ++ [x]) = Some x.
Proof.
  intros H Hx. induction rows as [| y rows IH]; simpl.
  - rewrite Hx, Z.eqb_refl. reflexivity.
  - destruct (Z.eqb_spec (id y) i) as [E | _].
    + exfalso. apply (H y); [left; reflexivity | exact E].
    + apply IH. intros c Hc. apply H. right. exact Hc.
Qed.

Lemma same_key_same_row {A : Type} (key : A -> Z) (rows : list A) (a b : A) :
  NoDup (map key rows) -> In a rows -> In b rows -> key a = key b -> a = b.
Proof.
  induction rows as [| x rows IH]; simpl; intros Hnd Ha Hb E; [contradiction |].
  apply NoDup_cons_iff in Hnd. destruct Hnd as [Hx Hnd].
  destruct Ha as [-> | Ha], Hb as [-> | Hb].
  - reflexivity.
  - exfalso. apply Hx. rewrite E. apply in_map. exact Hb.
  - exfalso. apply Hx. rewrite <- E. apply in_map. exact Ha.
  - apply IH; assumption.
Qed.

Lemma find_id_unique i (rows : list customer) (c : customer) :
  NoDup (map id rows) -> In c rows -> id c = i ->
  find (fun r => id r =? i) rows = Some c.
Proof.
  intros Hnd Hin Hi.
  destruct (find (fun r => id r =? i) rows) as [r |] eqn:E.
  - apply find_some in E. destruct E as [Hr Er]. apply Z.eqb_eq in Er.
    f_equal. apply (same_key_same_row id rows); try assumption. congruence.
  - exfalso. apply (find_none _ _ E) in Hin. apply Z.eqb_neq in Hin. contradiction.
Qed.

(** X2: what [GET /api/customers/:id] answers.  When no row has the id,
    404 'Customer not found.'; when a row has it (ids being the primary
    key), 200 with exactly that row.  Either way the database is left as it
    was. *)
Theorem get_customer_outcome (i : Z) (db : database) :
  ((forall c, In c (customers db) -> id c <> i) ->
   get_customer i db
   = ({| status := 404;
         body := MessageError "Customer not found." "An unknown error occurred." |},
      db))
  /\
  (forall c, NoDup (map id (customers db)) -> In c (customers db) -> id c = i ->
   get_customer i db
   = ({| status := 200; body := MessageCustomer "Customer fetched successfully" c |},
      db)).
Proof.
  split.
  - intros H. unfold get_customer, select_customer.
    rewrite (@find_id_none i (customers db) H). reflexivity.
  - intros c Hnd Hin Hi. unfold get_customer, select_customer.
    rewrite (@find_id_unique i (customers db) c Hnd Hin Hi). reflexivity.
Qed.

Lemma get_customer_outcome_witness :
  get_customer 7 sample_store
  = ({| status := 404;
        body := MessageError "Customer not found." "An unknown error occurred." |},
     sample_store)
  /\ get_customer 2 sample_store
     = ({| status := 200;
           body := MessageCustomer "Customer fetched successfully"
                     (mkCustomer 2 "Bob" "Ray" "4445551") |}, sample_store).
Proof.
  split.
  - apply (proj1 (get_customer_outcome 7 sample_store)).
    intros c Hc. simpl in Hc. destruct Hc as [<- | [<- | []]]; simpl; lia.
  - apply (proj2 (get_customer_outcome 2 sample_store)).
    + simpl. repeat constructor; simpl; intuition lia.
    + simpl. right. left. reflexivity.
    + reflexivity.
Defined.

(** X3: create, then read back.  After a create with three non-empty
    string fields and an unused phone number, [GET /api/customers/:id] with
    the id the create returned answers 200 with the row (id, first_name,
    last_name, phone_number) as sent. *)
Theorem create_then_get
  (req : CustomerBody.t) (db : database) (f l p : string) :
  nonempty_text (CustomerBody.first_name req) f ->
  nonempty_text (CustomerBody.last_name req) l ->
  nonempty_text (CustomerBody.phone_number req) p ->
  (forall c, In c (customers db) -> phone_number c <> p) ->
  exists newid,
    fst (post_customers (Some req) db)
    = {| status := 201; body := MessageId "Customer created successfully" newid |}
    /\ fst (get_customer newid (snd (post_customers (Some req) db)))
       = {| status := 200;
            body := MessageCustomer "Customer fetched successfully"
                      (mkCustomer newid f l p) |}.
Proof.
  intros Hf Hl Hp Hfresh.
  exists (next_rowid (seq_customers db) (map id (customers db))).
  rewrite (@post_customers_fresh_phone req db f l p Hf Hl Hp Hfresh). simpl.
  split; [reflexivity |].
  unfold get_customer, select_customer. simpl.
  rewrite find_id_appended; [reflexivity | | reflexivity].
  intros c Hc E.
  pose proof (@next_rowid_fresh (seq_customers db) (map id (customers db)) (id c)
                (in_map id _ _ Hc)) as Hlt.
  lia.
Qed.

Lemma create_then_get_witness :
  exists newid,
    fst (post_customers (Some (text_customer "Cy" "Orr" "1234567")) sample_store)
    = {| status := 201; body := MessageId "Customer created successfully" newid |}
    /\ fst (get_customer newid
              (snd (post_customers (Some (text_customer "Cy" "Orr" "1234567")) sample_store)))
       = {| status := 200;
            body := MessageCustomer "Customer fetched successfully"
                      (mkCustomer newid "Cy" "Orr" "1234567") |}.
Proof.
  apply (@create_then_get (text_customer "Cy" "Orr" "1234567") sample_store
           "Cy" "Orr" "1234567").
  - split; [reflexivity | discriminate].
  - split; [reflexivity | discriminate].
  - split; [reflexivity | discriminate].
  - intros c Hc. simpl in Hc. destruct Hc as [<- | [<- | []]]; discriminate.
Defined.

(** X4: once [DELETE /api/customers/:id] has been served, whatever it
    answered, the customer is gone: reading the id answers 404, and deleting
    it again answers 404 and changes nothing.  A delete of an id no row has
    is itself answered 404. *)
Theorem delete_then_get_not_found (i : Z) (db : database) :
  let db' := snd (delete_customers i db) in
  get_customer i db'
  = ({| status := 404;
        body := MessageError "Customer not found." "An unknown error occurred." |},
     db')
  /\ delete_customers i db'
     = ({| status := 404;
           body := MessageError "Customer not found." "An unknown error occurred." |},
        db')
  /\ ((forall c, In c (customers db) -> id c <> i) ->
      delete_customers i db
      = ({| status := 404;
            body := MessageError "Customer not found."
                                 "An unknown error occurred." |}, db)).
Proof.
  intros db'.
  assert (Hgone : forall c, In c (customers db') -> id c <> i).
  { intros c Hc. unfold db', delete_customers, delete_customer in Hc.
    simpl in Hc.
    destruct (count (filter (fun c => id c =? i) (customers db)) =? 0);
      simpl in Hc; apply filter_In in Hc; destruct Hc as [_ Hc];
      apply negb_true_iff in Hc; apply Z.eqb_neq; exact Hc. }
  assert (Hdel : forall d, (forall c, In c (customers d) -> id c <> i) ->
                 delete_customers i d
                 = ({| status := 404;
                       body := MessageError "Customer not found."
                                 "An unknown error occurred." |}, d)).
  { intros d Hd. unfold delete_customers.
    rewrite (@delete_customer_no_hit i d (filter_id_nil Hd)). reflexivity. }
  split; [| split].
  - unfold get_customer, select_customer.
    rewrite (@find_id_none i (customers db') Hgone). reflexivity.
  - apply Hdel. exact Hgone.
  - apply Hdel.
Qed.

Lemma delete_then_get_not_found_witness :
  let db' := snd (delete_customers 1 sample_store) in
  get_customer 1 db'
  = ({| status := 404;
        body := MessageError "Customer not found." "An unknown error occurred." |},
     db')
  /\ delete_customers 7 sample_store
     = ({| status := 404;
           body := MessageError "Customer not found." "An unknown error occurred." |},
        sample_store).
Proof.
  split.
  - apply (proj1 (delete_then_get_not_found 1 sample_store)).
  - apply (proj2 (proj2 (delete_then_get_not_found 7 sample_store))).
    intros c Hc. simpl in Hc. destruct Hc as [<- | [<- | []]]; simpl; lia.
Defined.

(* ------------------------------------------------------------------ *)
(** ** Updating a customer that exists                                  *)
(* ------------------------------------------------------------------ *)

Lemma put_customer_reaches_store
  (i : Z) (req : CustomerBody.t) (db : database) (f l p : string) :
  nonempty_text (CustomerBody.first_name req) f ->
  nonempty_text (CustomerBody.last_name req) l ->
  nonempty_text (CustomerBody.phone_number req) p ->
  put_customer i (Some req) db
  = match update_customer (SqlText f) (SqlText l) (SqlText p) i db with
    | inl err => (sendError 500 "Error updating customer." (Some err), db)
    | inr (this, db') =>
        if changes this =? 0
        then (sendError 404 "Customer not found or no changes made." None, db')
        else ({| status := 200; body := Message "Customer updated successfully" |},
              db')
    end.
Proof.
  intros Hf Hl Hp. unfold put_customer.
  rewrite (nonempty_text_truthy Hf), (nonempty_text_truthy Hl),
    (nonempty_text_truthy Hp). simpl.
  destruct Hf as [-> _], Hl as [-> _], Hp as [-> _]. reflexivity.
Qed.

Lemma rewrite_customer_others i (f l p : string) (rows : list customer) :
  (forall c, In c rows -> id c <> i) ->
  map (rewrite_customer i f l p) rows = rows.
Proof.
  intros H. induction rows as [| x rows IH]; simpl; [reflexivity |].
  unfold rewrite_customer at 1.
  destruct (Z.eqb_spec (id x) i) as [E | _].
  - exfalso. apply (H x); [left; reflexivity | exact E].
  - rewrite IH; [reflexivity |]. intros c Hc. apply H. right. exact Hc.
Qed.

(** Under the primary key, the [UPDATE] rewrites one customer row in
    place, and no row before it has the id. *)
Lemma rewrite_customer_single i (f l p : string) (rows : list customer) (c : customer) :
  NoDup (map id rows) -> In c rows -> id c = i ->
  exists before after,
    rows = (before ++ c :: after)%list
    /\ map (rewrite_customer i f l p) rows
       = (before ++ mkCustomer i f l p :: after)%list
    /\ (forall r, In r before -> id r <> i).
Proof.
  intros Hnd Hin Hi. induction rows as [| x rows IH]; [contradiction |].
  simpl in Hnd. apply NoDup_cons_iff in Hnd. destruct Hnd as [Hx Hnd].
  destruct (Z.eqb_spec (id x) i) as [E | N].
  - assert (Hcx : c = x).
    { destruct Hin as [Hin | Hin]; [symmetry; exact Hin |].
      exfalso. apply Hx. rewrite E, <- Hi. apply in_map. exact Hin. }
    subst c. exists [], rows. split; [reflexivity |]. split; [| intros r []].
    simpl. unfold rewrite_customer at 1. rewrite E, Z.eqb_refl.
    rewrite rewrite_customer_others; [reflexivity |].
    intros b Hb Eb. apply Hx. rewrite E, <- Eb. apply in_map. exact Hb.
  - destruct Hin as [Hin | Hin]; [subst x; contradiction |].
    destruct (IH Hnd Hin) as (before & after & Hrows & Hmap & Hbefore).
    exists (x :: before), after. split; [simpl; rewrite Hrows; reflexivity |].
    split.
    + simpl. rewrite Hmap. unfold rewrite_customer at 1.
      destruct (Z.eqb_spec (id x) i); [contradiction | reflexivity].
    + intros r [<- | Hr]; [exact N | apply Hbefore; exact Hr].
Qed.

Lemma find_id_in_place i (before after : list customer) (x : customer) :
  (forall r, In r before -> id r <> i) -> id x = i ->
  find (fun c => id c =? i) (before ++ x :: after) = Some x.
Proof.
  intros H Hx. induction before as [| y before IH]; simpl.
  - rewrite Hx, Z.eqb_refl. reflexivity.
  - destruct (Z.eqb_spec (id y) i) as [E | _].
    + exfalso. apply (H y); [left; reflexivity | exact E].
    + apply IH. intros r Hr. apply H. right. exact Hr.
Qed.

Lemma existsb_other_phone_false i p (rows : list customer) :
  (forall c, In c rows -> id c <> i -> phone_number c <> p) ->
  existsb (fun c => negb (id c =? i) && (phone_number c =? p)%string) rows = false.
Proof.
  intros H. induction rows as [| c rows IH]; simpl; [reflexivity |].
  rewrite IH by (intros c' Hc'; apply H; right; exact Hc').
  rewrite orb_false_r.
  destruct (Z.eqb_spec (id c) i) as [_ | N]; [reflexivity |]. simpl.
  apply String.eqb_neq. apply H; [left; reflexivity | exact N].
Qed.

Lemma filter_customer_hit i (rows : list customer) (c : customer) :
  In c rows -> id c = i ->
  exists x hit, filter (fun r => id r =? i) rows = x :: hit.
Proof.
  intros Hin Hi.
  destruct (filter (fun r => id r =? i) rows) as [| x hit] eqn:E.
  - exfalso.
    assert (Hc : In c (filter (fun r => id r =? i) rows)).
    { apply filter_In. split; [exact Hin | apply Z.eqb_eq; exact Hi]. }
    rewrite E in Hc. contradiction.
  - exists x, hit. reflexivity.
Qed.

(** X5: an update of an existing customer with three non-empty string
    fields and a phone number no other customer has is answered 200 and
    rewrites that one row in place: the row keeps its id, the other rows and
    the addresses stay as they were, and reading the id afterwards returns
    the new values. *)
Theorem update_customer_rewrites_one_row
  (i : Z) (req : CustomerBody.t) (db : database) (f l p : string) (c : customer) :
  nonempty_text (CustomerBody.first_name req) f ->
  nonempty_text (CustomerBody.last_name req) l ->
  nonempty_text (CustomerBody.phone_number req) p ->
  NoDup (map id (customers db)) ->
  In c (customers db) -> id c = i ->
  (forall c', In c' (customers db) -> id c' <> i -> phone_number c' <> p) ->
  exists before after,
    customers db = (before ++ c :: after)%list
    /\ put_customer i (Some req) db
       = ({| status := 200; body := Message "Customer updated successfully" |},
          {| customers := (before ++ mkCustomer i f l p :: after)%list;
             addresses := addresses db;
             seq_customers := seq_customers db;
             seq_addresses := seq_addresses db;
             foreign_keys := foreign_keys db |})
    /\ fst (get_customer i (snd (put_customer i (Some req) db)))
       = {| status := 200;
            body := MessageCustomer "Customer fetched successfully"
                      (mkCustomer i f l p) |}.
Proof.
  intros Hf Hl Hp Hnd Hin Hi Hother.
  destruct (@rewrite_customer_single i f l p (customers db) c Hnd Hin Hi)
    as (before & after & Hrows & Hmap & Hbefore).
  exists before, after. split; [exact Hrows |].
  assert (Hput : put_customer i (Some req) db
                 = ({| status := 200; body := Message "Customer updated successfully" |},
                    {| customers := (before ++ mkCustomer i f l p :: after)%list;
                       addresses := addresses db;
                       seq_customers := seq_customers db;
                       seq_addresses := seq_addresses db;
                       foreign_keys := foreign_keys db |})).
  { rewrite (@put_customer_reaches_store i req db f l p Hf Hl Hp).
    unfold update_customer.
    destruct (@filter_customer_hit i (customers db) c Hin Hi) as (x & hit & E).
    rewrite E. simpl text_not_null. cbv iota.
    rewrite (@existsb_other_phone_false i p (customers db) Hother).
    unfold count. simpl. rewrite <- Hmap. reflexivity. }
  split; [exact Hput |].
  rewrite Hput. unfold get_customer, select_customer. simpl.
  rewrite find_id_in_place; [reflexivity | exact Hbefore | reflexivity].
Qed.

Lemma update_customer_rewrites_one_row_witness :
  exists before after,
    customers sample_store = (before ++ mkCustomer 2 "Bob" "Ray" "4445551" :: after)%list
    /\ put_customer 2 (Some (text_customer "Rob" "Roy" "7778889")) sample_store
       = ({| status := 200; body := Message "Customer updated successfully" |},
          {| customers := (before ++ mkCustomer 2 "Rob" "Roy" "7778889" :: after)%list;
             addresses := addresses sample_store;
             seq_customers := seq_customers sample_store;
             seq_addresses := seq_addresses sample_store;
             foreign_keys := foreign_keys sample_store |})
    /\ fst (get_customer 2
              (snd (put_customer 2 (Some (text_customer "Rob" "Roy" "7778889")) sample_store)))
       = {| status := 200;
            body := MessageCustomer "Customer fetched successfully"
                      (mkCustomer 2 "Rob" "Roy" "7778889") |}.
Proof.
  apply (@update_customer_rewrites_one_row 2 (text_customer "Rob" "Roy" "7778889")
           sample_store "Rob" "Roy" "7778889" (mkCustomer 2 "Bob" "Ray" "4445551")).
  - split; [reflexivity | discriminate].
  - split; [reflexivity | discriminate].
  - split; [reflexivity | discriminate].
  - simpl. repeat constructor; simpl; intuition lia.
  - simpl. right. left. reflexivity.
  - reflexivity.
  - intros c' Hc' _. simpl in Hc'. destruct Hc' as [<- | [<- | []]]; discriminate.
Defined.

(** X6: an update that would give an existing customer the phone number of
    another customer is answered 500 with the store's UNIQUE-constraint
    error, and no row is changed. *)
Theorem update_customer_duplicate_phone_fails
  (i : Z) (req : CustomerBody.t) (db : database) (f l p : string) (c other : customer) :
  nonempty_text (CustomerBody.first_name req) f ->
  nonempty_text (CustomerBody.last_name req) l ->
  nonempty_text (CustomerBody.phone_number req) p ->
  In c (customers db) -> id c = i ->
  In other (customers db) -> id other <> i -> phone_number other = p ->
  put_customer i (Some req) db
  = ({| status := 500;
        body := MessageError "Error updating customer."
                  "SQLITE_CONSTRAINT: UNIQUE constraint failed: customers.phone_number" |},
     db).
Proof.
  intros Hf Hl Hp Hin Hi Hoin Hoi Hop.
  rewrite (@put_customer_reaches_store i req db f l p Hf Hl Hp).
  unfold update_customer.
  destruct (@filter_customer_hit i (customers db) c Hin Hi) as (x & hit & E).
  rewrite E. simpl text_not_null. cbv iota.
  assert (Hex : existsb (fun r => negb (id r =? i) && (phone_number r =? p)%string)
                  (customers db) = true).
  { apply existsb_exists. exists other. split; [exact Hoin |].
    apply andb_true_iff. split.
    - apply negb_true_iff. apply Z.eqb_neq. exact Hoi.
    - apply String.eqb_eq. exact Hop. }
  rewrite Hex. reflexivity.
Qed.

Lemma update_customer_duplicate_phone_fails_witness :
  put_customer 2 (Some (text_customer "Bob" "Ray" "5550100")) sample_store
  = ({| status := 500;
        body := MessageError "Error updating customer."
                  "SQLITE_CONSTRAINT: UNIQUE constraint failed: customers.phone_number" |},
     sample_store).
Proof.
  apply (@update_customer_duplicate_phone_fails 2
           (text_customer "Bob" "Ray" "5550100") sample_store
           "Bob" "Ray" "5550100"
           (mkCustomer 2 "Bob" "Ray" "4445551") (mkCustomer 1 "Ann" "Lee" "5550100")).
  - split; [reflexivity | discriminate].
  - split; [reflexivity | discriminate].
  - split; [reflexivity | discriminate].
  - simpl. right. left. reflexivity.
  - reflexivity.
  - simpl. left. reflexivity.
  - simpl. lia.
  - reflexivity.
Defined.

Lemma rewrite_customer_id i (f l p : string) (c : customer) :
  id (rewrite_customer i f l p c) = id c.
Proof. unfold rewrite_customer. destruct (id c =? i); reflexivity. Qed.

Lemma filter_id_after_update i (f l p : string) (rows : list customer) :
  filter (fun c => id c =? i) (map (rewrite_customer i f l p) rows)
  = map (rewrite_customer i f l p) (filter (fun c => id c =? i) rows).
Proof.
  induction rows as [| x rows IH]; simpl; [reflexivity |].
  rewrite rewrite_customer_id.
  destruct (id x =? i); simpl; rewrite IH; reflexivity.
Qed.

Lemma existsb_other_phone_after_update i (f l p : string) q (rows : list customer) :
  existsb (fun c => negb (id c =? i) && (phone_number c =? q)%string)
          (map (rewrite_customer i f l p) rows)
  = existsb (fun c => negb (id c =? i) && (phone_number c =? q)%string) rows.
Proof.
  induction rows as [| x rows IH]; simpl; [reflexivity |].
  rewrite IH. f_equal. rewrite rewrite_customer_id. unfold rewrite_customer.
  destruct (id x =? i); reflexivity.
Qed.

Lemma rewrite_customer_twice i (f l p : string) (rows : list customer) :
  map (rewrite_customer i f l p) (map (rewrite_customer i f l p) rows)
  = map (rewrite_customer i f l p) rows.
Proof.
  rewrite map_map. apply map_ext. intros c. unfold rewrite_customer.
  destruct (Z.eqb_spec (id c) i) as [E | N]; simpl.
  - rewrite E, Z.eqb_refl. reflexivity.
  - destruct (Z.eqb_spec (id c) i); [contradiction | reflexivity].
Qed.

(** The [UPDATE] at the level of the store: a second run of a successful
    statement succeeds with the same result and changes nothing more. *)
Lemma update_customer_again (f l p : sqlvalue) (i : Z) (db db' : database)
      (this : run_result) :
  update_customer f l p i db = inr (this, db') ->
  update_customer f l p i db' = inr (this, db').
Proof.
  unfold update_customer.
  destruct (filter (fun c => id c =? i) (customers db)) as [| x hit] eqn:E.
  - intros H. injection H as <- <-. rewrite E. reflexivity.
  - destruct (text_not_null f) as [f' |]; [| discriminate].
    destruct (text_not_null l) as [l' |]; [| destruct (text_not_null p); discriminate].
    destruct (text_not_null p) as [p' |]; [| discriminate].
    destruct (existsb _ (customers db)) eqn:Ex; [discriminate |].
    intros H. injection H as <- <-. simpl.
    change (map (fun c => if id c =? i then mkCustomer (id c) f' l' p' else c)
                (customers db))
      with (map (rewrite_customer i f' l' p') (customers db)).
    rewrite filter_id_after_update, E. simpl map.
    rewrite existsb_other_phone_after_update, Ex.
    change (fun c => if id c =? i then mkCustomer (id c) f' l' p' else c)
      with (rewrite_customer i f' l' p').
    rewrite rewrite_customer_twice.
    unfold count. simpl. rewrite length_map. reflexivity.
Qed.

(** X7: [PUT /api/customers/:id] can be repeated: when an update has been
    answered 200, sending the same update again is answered 200 again and
    leaves the database as the first update left it, although no value
    changes the second time. *)
Theorem update_customer_repeatable (i : Z) (req : CustomerBody.t) (db : database) :
  status (fst (put_customer i (Some req) db)) = 200 ->
  put_customer i (Some req) (snd (put_customer i (Some req) db)) = put_customer i (Some req) db.
Proof.
  unfold put_customer.
  destruct (negb _ || _ || _); [simpl; discriminate |].
  destruct (update_customer _ _ _ i db) as [err | [this db']] eqn:E;
    [simpl; discriminate |].
  destruct (changes this =? 0) eqn:Ch; [simpl; discriminate |].
  intros _. simpl snd. rewrite (update_customer_again _ _ _ _ _ E), Ch.
  reflexivity.
Qed.

Lemma update_customer_repeatable_witness :
  put_customer 2 (Some (text_customer "Bob" "Ray" "4445551"))
               (snd (put_customer 2 (Some (text_customer "Bob" "Ray" "4445551")) sample_store))
  = put_customer 2 (Some (text_customer "Bob" "Ray" "4445551")) sample_store
  /\ fst (put_customer 2 (Some (text_customer "Bob" "Ray" "4445551")) sample_store)
     = {| status := 200; body := Message "Customer updated successfully" |}.
Proof.
  split.
  - apply (@update_customer_repeatable 2 (text_customer "Bob" "Ray" "4445551")
             sample_store).
    reflexivity.
  - reflexivity.
Defined.

(* ------------------------------------------------------------------ *)
(** ** Validation comes first                                           *)
(* ------------------------------------------------------------------ *)

(** X8: an update of a customer whose request has a JSON body in which
    one of the three fields is empty or absent is answered 400 'All fields
    are required.' before the store is asked anything: the answer is the
    same whether or not the id exists, and the database is untouched.  A
    request without a body does not get that far: taking the fields of
    [req.body] throws, and the answer is the 500 of the uncaught
    [TypeError]. *)
Theorem update_customer_missing_field (i : Z) (req : CustomerBody.t) (db : database) :
  empty_or_absent (CustomerBody.first_name req)
  \/ empty_or_absent (CustomerBody.last_name req)
  \/ empty_or_absent (CustomerBody.phone_number req) ->
  put_customer i (Some req) db
  = ({| status := 400;
        body := MessageError "All fields are required."
                             "An unknown error occurred." |}, db)
  /\ put_customer i None db
     = ({| status := 500;
           body := Uncaught "TypeError: Cannot destructure property 'first_name' of 'req.body' as it is undefined." |},
        db).
Proof.
  intros H. split; [| reflexivity]. unfold put_customer.
  destruct H as [H | [H | H]]; apply empty_or_absent_falsy in H; rewrite H;
    simpl; rewrite ?orb_true_r; reflexivity.
Qed.

Lemma update_customer_missing_field_witness :
  put_customer 1
    (Some (CustomerBody.make (JString "Ann") (JString "") (JString "5550100")))
    sample_store
  = ({| status := 400;
        body := MessageError "All fields are required."
                             "An unknown error occurred." |}, sample_store)
  /\ put_customer 1 None sample_store
     = ({| status := 500;
           body := Uncaught "TypeError: Cannot destructure property 'first_name' of 'req.body' as it is undefined." |},
        sample_store).
Proof.
  apply (@update_customer_missing_field 1
           (CustomerBody.make (JString "Ann") (JString "") (JString "5550100"))
           sample_store).
  right. left. right. right. reflexivity.
Defined.

(** X9: an address create or an address update whose request has a JSON
    body in which one of the four text fields is empty or absent is answered
    400 'All address fields are required.', for every customer id and every
    address id, and the database is untouched.  Without a body, both are
    answered the 500 of the uncaught [TypeError] that taking the fields of
    [req.body] throws. *)
Theorem address_missing_field (i : Z) (req : AddressBody.t) (db : database) :
  empty_or_absent (AddressBody.address_details req)
  \/ empty_or_absent (AddressBody.city req)
  \/ empty_or_absent (AddressBody.state req)
  \/ empty_or_absent (AddressBody.pin_code req) ->
  post_addresses i (Some req) db
  = ({| status := 400;
        body := MessageError "All address fields are required."
                             "An unknown error occurred." |}, db)
  /\ put_address i (Some req) db
     = ({| status := 400;
           body := MessageError "All address fields are required."
                                "An unknown error occurred." |}, db)
  /\ post_addresses i None db
     = ({| status := 500;
           body := Uncaught "TypeError: Cannot destructure property 'address_details' of 'req.body' as it is undefined." |},
        db)
  /\ put_address i None db
     = ({| status := 500;
           body := Uncaught "TypeError: Cannot destructure property 'address_details' of 'req.body' as it is undefined." |},
        db).
Proof.
  intros H. split; [| split; [| split; reflexivity]];
    unfold post_addresses, put_address;
    destruct H as [H | [H | [H | H]]]; apply empty_or_absent_falsy in H; rewrite H;
    simpl; rewrite ?orb_true_r; reflexivity.
Qed.

Lemma address_missing_field_witness :
  post_addresses 1
    (Some (AddressBody.make (JString "1 Main St") JUndefined
                            (JString "MH") (JString "411001"))) sample_store
  = ({| status := 400;
        body := MessageError "All address fields are required."
                             "An unknown error occurred." |}, sample_store)
  /\ put_address 1
       (Some (AddressBody.make (JString "1 Main St") JUndefined
                               (JString "MH") (JString "411001"))) sample_store
     = ({| status := 400;
           body := MessageError "All address fields are required."
                                "An unknown error occurred." |}, sample_store).
Proof.
  destruct (@address_missing_field 1
              (AddressBody.make (JString "1 Main St") JUndefined
                                (JString "MH") (JString "411001")) sample_store)
    as (H1 & H2 & _).
  - right. left. left. reflexivity.
  - split; assumption.
Defined.

(* ------------------------------------------------------------------ *)
(** ** Addresses: create and list, delete, update                       *)
(* ------------------------------------------------------------------ *)



Lemma filter_address_id_nil i (rows : list address) :
  (forall a, In a rows -> address_id a <> i) ->
  filter (fun a => address_id a =? i) rows = [].
Proof.
  intros H. induction rows as [| x rows IH]; simpl; [reflexivity |].
  destruct (Z.eqb_spec (address_id x) i) as [E | _].
  - exfalso. apply (H x); [left; reflexivity | exact E].
  - apply IH. intros a Ha. apply H. right. exact Ha.
Qed.

(** Under the primary key, the [DELETE] of an address takes one row out. *)
Lemma remove_address_single i (rows : list address) (a : address) :
  NoDup (map address_id rows) -> In a rows -> address_id a = i ->
  exists before after,
    rows = (before ++ a :: after)%list
    /\ filter (fun r => negb (address_id r =? i)) rows = (before ++ after)%list.
Proof.
  intros Hnd Hin Hi. induction rows as [| x rows IH]; [contradiction |].
  simpl in Hnd. apply NoDup_cons_iff in Hnd. destruct Hnd as [Hx Hnd].
  destruct (Z.eqb_spec (address_id x) i) as [E | N].
  - assert (Hax : a = x).
    { destruct Hin as [Hin | Hin]; [symmetry; exact Hin |].
      exfalso. apply Hx. rewrite E, <- Hi. apply in_map. exact Hin. }
    subst a. exists [], rows. split; [reflexivity |]. simpl.
    rewrite E, Z.eqb_refl. simpl.
    apply filter_none_keeps_all. apply filter_address_id_nil.
    intros b Hb Eb. apply Hx. rewrite E, <- Eb. apply in_map. exact Hb.
  - destruct Hin as [Hin | Hin]; [subst x; contradiction |].
    destruct (IH Hnd Hin) as (before & after & Hrows & Hfilter).
    exists (x :: before), after. split; [simpl; rewrite Hrows; reflexivity |].
    simpl. destruct (Z.eqb_spec (address_id x) i); [contradiction |].
    simpl. rewrite Hfilter. reflexivity.
Qed.

(** X11: what [DELETE /api/addresses/:addressId] does.  When no address
    has the id it answers 404 'Address not found.' and changes nothing; when
    an address has it (ids being the primary key) it answers 200 and takes
    that one row out of the table, leaving the rows before and after it, and
    the customers, as they were. *)
Theorem delete_address_outcome (i : Z) (db : database) :
  ((forall a, In a (addresses db) -> address_id a <> i) ->
   delete_addresses i db
   = ({| status := 404;
         body := MessageError "Address not found." "An unknown error occurred." |},
      db))
  /\
  (forall a, NoDup (map address_id (addresses db)) ->
     In a (addresses db) -> address_id a = i ->
     exists before after,
       addresses db = (before ++ a :: after)%list
       /\ delete_addresses i db
          = ({| status := 200; body := Message "Address deleted successfully" |},
             {| customers := customers db;
                addresses := (before ++ after)%list;
                seq_customers := seq_customers db;
                seq_addresses := seq_addresses db;
                foreign_keys := foreign_keys db |})).
Proof.
  split.
  - intros H. unfold delete_addresses.
    rewrite (@delete_address_no_hit i db (@filter_address_id_nil i _ H)).
    reflexivity.
  - intros a Hnd Hin Hi.
    destruct (@remove_address_single i (addresses db) a Hnd Hin Hi)
      as (before & after & Hrows & Hfilter).
    exists before, after. split; [exact Hrows |].
    unfold delete_addresses, delete_address.
    destruct (@filter_address_hit i (addresses db) a Hin Hi) as (x & hit & E).
    rewrite E, Hfilter. unfold count. simpl. reflexivity.
Qed.

Lemma delete_address_outcome_witness :
  delete_addresses 7 sample_store
  = ({| status := 404;
        body := MessageError "Address not found." "An unknown error occurred." |},
     sample_store)
  /\ exists before after,
       addresses sample_store
       = (before ++ mkAddress 2 9 "7 Far Ln" "Leh" "LA" "194101" :: after)%list
       /\ delete_addresses 2 sample_store
          = ({| status := 200; body := Message "Address deleted successfully" |},
             {| customers := customers sample_store;
                addresses := (before ++ after)%list;
                seq_customers := seq_customers sample_store;
                seq_addresses := seq_addresses sample_store;
                foreign_keys := foreign_keys sample_store |}).
Proof.
  split.
  - apply (proj1 (delete_address_outcome 7 sample_store)).
    intros a Ha. simpl in Ha. destruct Ha as [<- | [<- | [<- | []]]]; simpl; lia.
  - apply (proj2 (delete_address_outcome 2 sample_store)
             (mkAddress 2 9 "7 Far Ln" "Leh" "LA" "194101")).
    + simpl. repeat constructor; simpl; intuition lia.
    + simpl. right. left. reflexivity.
    + reflexivity.
Defined.

(** X12: an update of an address id that no address row has, with four
    non-empty string fields, is answered 404 'Address not found or no changes
    made.', and the database is the database before. *)
Theorem update_unknown_address_not_found
  (i : Z) (req : AddressBody.t) (db : database) (d c s p : string) :
  nonempty_text (AddressBody.address_details req) d ->
  nonempty_text (AddressBody.city req) c ->
  nonempty_text (AddressBody.state req) s ->
  nonempty_text (AddressBody.pin_code req) p ->
  (forall a, In a (addresses db) -> address_id a <> i) ->
  put_address i (Some req) db
  = ({| status := 404;
        body := MessageError "Address not found or no changes made."
                             "An unknown error occurred." |}, db).
Proof.
  intros Hd Hc Hs Hp Hi.
  rewrite (@put_address_reaches_store req d c s p Hd Hc Hs Hp).
  unfold update_address. rewrite (@filter_address_id_nil i _ Hi). reflexivity.
Qed.

Lemma update_unknown_address_not_found_witness :
  put_address 7 (Some (text_address "9 Lake Vw" "Kochi" "KL" "682001")) sample_store
  = ({| status := 404;
        body := MessageError "Address not found or no changes made."
                             "An unknown error occurred." |}, sample_store).
Proof.
  apply (@update_unknown_address_not_found 7
           (text_address "9 Lake Vw" "Kochi" "KL" "682001") sample_store
           "9 Lake Vw" "Kochi" "KL" "682001").
  - split; [reflexivity | discriminate].
  - split; [reflexivity | discriminate].
  - split; [reflexivity | discriminate].
  - split; [reflexivity | discriminate].
  - intros a Ha. simpl in Ha. destruct Ha as [<- | [<- | [<- | []]]]; simpl; lia.
Defined.

(* ------------------------------------------------------------------ *)
(** ** Ids are never issued twice                                       *)
(* ------------------------------------------------------------------ *)

Lemma route_seq_customers_grows r db :
  seq_customers db <= seq_customers (snd (route r db)).
Proof.
  destruct r as [[req |] | req | i | i [req |] | i | i [req |] | i | i [req |] | i];
    cbn [route]; try (simpl; lia).
  - unfold post_customers, insert_customer. split_handler; simpl; try lia.
    unfold next_rowid. lia.
  - rewrite get_customers_snd. lia.
  - unfold get_customer, select_customer. split_handler; simpl; lia.
  - unfold put_customer, update_customer. split_handler; simpl; lia.
  - unfold delete_customers, delete_customer; simpl. split_handler; simpl; lia.
  - unfold post_addresses, insert_address. split_handler; simpl; lia.
  - unfold put_address, update_address. split_handler; simpl; lia.
  - unfold delete_addresses, delete_address; simpl. split_handler; simpl; lia.
Qed.

Lemma serve_seq_customers_grows rs db :
  seq_customers db <= seq_customers (snd (serve rs db)).
Proof.
  revert db. induction rs as [| r rs IH]; intros db; [simpl; lia |].
  rewrite serve_snd_cons.
  pose proof (route_seq_customers_grows r db).
  pose proof (IH (snd (route r db))). lia.
Qed.

(** A create that is answered 201 returns the new value of the table's
    sequence, which is above the old one. *)
Lemma post_customers_created body db :
  status (fst (post_customers body db)) = 201 ->
  fst (post_customers body db)
  = {| status := 201;
       body := MessageId "Customer created successfully"
                 (seq_customers (snd (post_customers body db))) |}
  /\ seq_customers db < seq_customers (snd (post_customers body db)).
Proof.
  destruct body as [req |]; [| discriminate].
  unfold post_customers, insert_customer. split_handler; simpl;
    try discriminate.
  intros _. split; [reflexivity | unfold next_rowid; lia].
Qed.

(** X13: customer ids are never issued twice.  If a create is answered 201
    with id [id1] and, after any further requests (deletes included), another
    create is answered 201 with id [id2], then [id1 < id2]. *)
Theorem customer_ids_never_reused
  (first : option CustomerBody.t) (rs : list request)
  (second : option CustomerBody.t) (db : database) :
  let db1 := snd (post_customers first db) in
  let db2 := snd (serve rs db1) in
  status (fst (post_customers first db)) = 201 ->
  status (fst (post_customers second db2)) = 201 ->
  exists id1 id2,
    fst (post_customers first db)
    = {| status := 201; body := MessageId "Customer created successfully" id1 |}
    /\ fst (post_customers second db2)
       = {| status := 201; body := MessageId "Customer created successfully" id2 |}
    /\ id1 < id2.
Proof.
  intros db1 db2 H1 H2.
  destruct (post_customers_created first db H1) as [E1 _].
  destruct (post_customers_created second db2 H2) as [E2 L2].
  exists (seq_customers db1), (seq_customers (snd (post_customers second db2))).
  split; [exact E1 |]. split; [exact E2 |].
  pose proof (serve_seq_customers_grows rs db1). fold db2 in H. lia.
Qed.

Lemma customer_ids_never_reused_witness :
  exists id1 id2,
    fst (post_customers (Some (text_customer "Cy" "Orr" "1234567")) sample_store)
    = {| status := 201; body := MessageId "Customer created successfully" id1 |}
    /\ fst (post_customers (Some (text_customer "Di" "Poe" "7654321"))
              (snd (serve [DELETE_customer 3]
                      (snd (post_customers (Some (text_customer "Cy" "Orr" "1234567"))
                              sample_store)))))
       = {| status := 201; body := MessageId "Customer created successfully" id2 |}
    /\ id1 < id2.
Proof.
  apply (@customer_ids_never_reused (Some (text_customer "Cy" "Orr" "1234567"))
           [DELETE_customer 3] (Some (text_customer "Di" "Poe" "7654321"))
           sample_store);
    reflexivity.
Defined.

(* ------------------------------------------------------------------ *)
(** ** What holds of every database the service reaches                 *)
(* ------------------------------------------------------------------ *)

Lemma NoDup_map_filter_any {A B : Type} (key : A -> B) (keep : A -> bool)
      (rows : list A) :
  NoDup (map key rows) -> NoDup (map key (filter keep rows)).
Proof.
  induction rows as [| x rows IH]; simpl; intros H; [constructor |].
  apply NoDup_cons_iff in H. destruct H as [Hx H].
  destruct (keep x); simpl; [| exact (IH H)].
  constructor; [| exact (IH H)].
  intros Hin. apply Hx. apply in_map_iff in Hin. destruct Hin as (y & Ey & Hy).
  apply filter_In in Hy. rewrite <- Ey. apply in_map. apply Hy.
Qed.

Lemma NoDup_phone_appended p (rows : list customer) (x : customer) :
  NoDup (map phone_number rows) ->
  existsb (fun c => (phone_number c =? p)%string) rows = false ->
  phone_number x = p ->
  NoDup (map phone_number (rows ++ [x])).
Proof.
  intros Hnd Hex Hx. rewrite map_app. simpl.
  apply NoDup_app; [exact Hnd | repeat constructor; intros [] |].
  intros q Hq [<- | []]. apply in_map_iff in Hq. destruct Hq as (c & Ec & Hc).
  assert (T : existsb (fun c => (phone_number c =? p)%string) rows = true).
  { apply existsb_exists. exists c. split; [exact Hc |].
    apply String.eqb_eq. congruence. }
  congruence.
Qed.

Lemma phone_after_update i (f l p : string) (rows : list customer) q :
  In q (map phone_number (map (rewrite_customer i f l p) rows)) ->
  (exists c, In c rows /\ id c = i /\ q = p)
  \/ (exists c, In c rows /\ id c <> i /\ phone_number c = q).
Proof.
  intros H. apply in_map_iff in H. destruct H as (c' & Eq & Hc').
  apply in_map_iff in Hc'. destruct Hc' as (c & Ec & Hc).
  unfold rewrite_customer in Ec.
  destruct (Z.eqb_spec (id c) i) as [E | N].
  - left. exists c. subst c'. simpl in Eq. repeat split; congruence.
  - right. exists c. subst c'. repeat split; assumption.
Qed.

Lemma existsb_other_phone_true i p (rows : list customer) (c : customer) :
  In c rows -> id c <> i -> phone_number c = p ->
  existsb (fun r => negb (id r =? i) && (phone_number r =? p)%string) rows = true.
Proof.
  intros Hc Nc Ec. apply existsb_exists. exists c. split; [exact Hc |].
  apply andb_true_iff. split.
  - apply negb_true_iff. apply Z.eqb_neq. exact Nc.
  - apply String.eqb_eq. exact Ec.
Qed.

Lemma NoDup_phone_updated i (f l p : string) (rows : list customer) :
  NoDup (map id rows) -> NoDup (map phone_number rows) ->
  existsb (fun c => negb (id c =? i) && (phone_number c =? p)%string) rows = false ->
  NoDup (map phone_number (map (rewrite_customer i f l p) rows)).
Proof.
  induction rows as [| x rows IH]; simpl; intros Hid Hph Hex; [constructor |].
  apply NoDup_cons_iff in Hid. destruct Hid as [Hxid Hid].
  apply NoDup_cons_iff in Hph. destruct Hph as [Hxph Hph].
  apply orb_false_iff in Hex. destruct Hex as [Hx Hex].
  constructor; [| exact (IH Hid Hph Hex)].
  intros Hin. apply phone_after_update in Hin.
  destruct Hin as [(c & Hc & Ec & Eq) | (c & Hc & Nc & Eq)].
  - (* a rewritten row among the rest *)
    unfold rewrite_customer in Eq.
    destruct (Z.eqb_spec (id x) i) as [E | N]; simpl in Eq.
    + apply Hxid. rewrite E, <- Ec. apply in_map. exact Hc.
    + simpl in Hx. apply String.eqb_neq in Hx. contradiction.
  - (* an untouched row among the rest *)
    unfold rewrite_customer in Eq.
    destruct (Z.eqb_spec (id x) i) as [E | N]; simpl in Eq.
    + rewrite (@existsb_other_phone_true i p rows c Hc Nc Eq) in Hex.
      discriminate.
    + apply Hxph. rewrite <- Eq. apply in_map. exact Hc.
Qed.

Lemma route_phones_unique r db :
  keys_unique db -> phones_unique db -> phones_unique (snd (route r db)).
Proof.
  intros [Hid _] Hph. unfold phones_unique in *.
  destruct r as [[req |] | req | i | i [req |] | i | i [req |] | i | i [req |] | i];
    cbn [route]; try exact Hph.
  - unfold post_customers, insert_customer.
    destruct (negb _ || _ || _); [exact Hph |].
    destruct (text_not_null (bind (CustomerBody.first_name req))) as [f' |];
      [| exact Hph].
    destruct (text_not_null (bind (CustomerBody.last_name req))) as [l' |];
      [| exact Hph].
    destruct (text_not_null (bind (CustomerBody.phone_number req))) as [p' |];
      [| exact Hph].
    destruct (existsb _ _) eqn:Ex; [exact Hph |]. simpl.
    apply (@NoDup_phone_appended p' (customers db) _ Hph Ex). reflexivity.
  - rewrite get_customers_snd. exact Hph.
  - unfold get_customer, select_customer. split_handler; exact Hph.
  - unfold put_customer, update_customer.
    destruct (negb _ || _ || _); [exact Hph |].
    destruct (filter _ _) as [| x hit]; [exact Hph |].
    destruct (text_not_null (bind (CustomerBody.first_name req))) as [f' |];
      [| exact Hph].
    destruct (text_not_null (bind (CustomerBody.last_name req))) as [l' |];
      [| exact Hph].
    destruct (text_not_null (bind (CustomerBody.phone_number req))) as [p' |];
      [| exact Hph].
    destruct (existsb _ _) eqn:Ex; [exact Hph |].
    pose proof (@NoDup_phone_updated i f' l' p' (customers db) Hid Hph Ex) as G.
    simpl. destruct (count (x :: hit) =? 0); exact G.
  - unfold delete_customers, delete_customer; simpl.
    destruct (count _ =? 0); simpl; apply NoDup_map_filter_any; exact Hph.
  - unfold post_addresses, insert_address. split_handler; exact Hph.
  - unfold put_address, update_address. split_handler; exact Hph.
  - unfold delete_addresses, delete_address; simpl. split_handler; exact Hph.
Qed.

(** X14: the keys hold of every database the service reaches.  Starting
    from a fresh file and whatever requests are served, no two customers
    share an id, no two addresses share an id, and no two customers share a
    phone number. *)
Theorem reachable_database_keys (rs : list request) :
  NoDup (map id (customers (snd (serve rs open_database))))
  /\ NoDup (map address_id (addresses (snd (serve rs open_database))))
  /\ NoDup (map phone_number (customers (snd (serve rs open_database)))).
Proof.
  assert (G : forall db, keys_unique db -> phones_unique db ->
              keys_unique (snd (serve rs db)) /\ phones_unique (snd (serve rs db))).
  { induction rs as [| r rs IH]; intros db Hk Hp; [split; assumption |].
    rewrite serve_snd_cons. apply IH.
    - apply route_keys_unique. exact Hk.
    - apply route_phones_unique; assumption. }
  destruct (G open_database) as [[H1 H2] H3].
  - split; constructor.
  - constructor.
  - repeat split; assumption.
Qed.

(** X15: for requests whose body fields are JSON strings (or missing), the
    presence checks do keep empty text out: starting from a fresh file and
    serving any such requests, every customer row has non-empty
    [first_name], [last_name] and [phone_number] and every address row has
    non-empty [address_details], [city], [state] and [pin_code]. *)
Theorem text_requests_store_no_empty_text (rs : list request) :
  Forall text_request rs ->
  texts_nonempty (snd (serve rs open_database)).
Proof.
  assert (G : forall db, Forall text_request rs -> texts_nonempty db ->
              texts_nonempty (snd (serve rs db))).
  { induction rs as [| r rs IH]; intros db Hrs Hdb; [exact Hdb |].
    rewrite serve_snd_cons. inversion Hrs as [| r' rs' Hr Hrest]; subst.
    apply IH; [exact Hrest |]. apply route_texts_nonempty; assumption. }
  intros Hrs. apply G; [exact Hrs |]. split; constructor.
Qed.

Lemma text_requests_store_no_empty_text_witness :
  texts_nonempty
    (snd (serve [ POST_customers (Some (text_customer "Ann" "Lee" "5550100"));
                  POST_customers (Some (text_customer "" "Ray" "4445551"));
                  POST_addresses 1 (Some (text_address "1 Main St" "Pune" "MH" "411001"));
                  PUT_customer 1 (Some (text_customer "Ann" "Lee" ""));
                  PUT_address 1 (Some (text_address "2 Hill Rd" "Agra" "UP" "282001")) ]
            open_database)).
Proof.
  apply text_requests_store_no_empty_text.
  repeat (apply Forall_cons || apply Forall_nil);
    simpl; repeat split; right; eexists; reflexivity.
Defined.

(* ------------------------------------------------------------------ *)
(** ** Paging through the listing                                       *)
(* ------------------------------------------------------------------ *)

Lemma firstn_add {A : Type} (a b : nat) (rows : list A) :
  firstn (a + b) rows = (firstn a rows ++ firstn b (skipn a rows))%list.
Proof.
  revert rows. induction a as [| a IH]; intros rows; [reflexivity |].
  destruct rows as [| x rows]; simpl.
  - rewrite firstn_nil. reflexivity.
  - rewrite IH. reflexivity.
Qed.

(** The windows of size [size] laid end to end. *)
Lemma windows_concat {A : Type} (size : nat) (rows : list A) (n : nat) :
  List.concat (map (fun k => firstn size (skipn ((k - 1) * size) rows)) (seq 1 n))
  = firstn (n * size) rows.
Proof.
  induction n as [| n IH]; [reflexivity |].
  rewrite seq_S, map_app, concat_app, IH. simpl.
  rewrite app_nil_r. replace (n - 0)%nat with n by lia.
  replace (size + n * size)%nat with (n * size + size)%nat by lia.
  rewrite firstn_add. reflexivity.
Qed.

Lemma page_rows_window (limit : Z) (search : option string) (db : database) (k : nat) :
  1 <= limit -> (1 <= k)%nat -> Z.of_nat k * limit <= 2 ^ 53 ->
  page_rows limit search db k
  = Some (firstn (Z.to_nat limit)
            (skipn ((k - 1) * Z.to_nat limit) (matching (default "" search) db))).
Proof.
  intros Hl Hk Hr. unfold page_rows.
  rewrite get_customers_eq; simpl default; try nia. simpl.
  rewrite limit_offset_window by lia.
  replace (Z.to_nat ((Z.of_nat k - 1) * limit)) with ((k - 1) * Z.to_nat limit)%nat
    by nia.
  reflexivity.
Qed.

(** X16: paging loses and repeats nothing.  For [limit >= 1] on a table
    whose matching rows and [limit] together stay within 2^53, the listing
    reports a finite [totalPages = q], the pages 1, 2, ..., q are answered
    200 and laid end to end are exactly the matching rows in table order,
    and every later page [k] with [k * limit <= 2^53] is answered 200 with
    no rows. *)
Theorem pages_cover_matching_rows
  (limit : Z) (search : option string) (db : database) :
  1 <= limit ->
  count (matching (default "" search) db) + limit <= 2 ^ 53 ->
  exists q : nat,
    total_pages_of
      (fst (get_customers (Query.make (Some 1) (Some limit) search) db))
    = Some (Finite (Z.of_nat q))
    /\ (exists pages,
          map (page_rows limit search db) (seq 1 q) = map Some pages
          /\ List.concat pages = matching (default "" search) db)
    /\ forall k, (q < k)%nat -> Z.of_nat k * limit <= 2 ^ 53 ->
         page_rows limit search db k = Some [].
Proof.
  intros Hl Hsize.
  set (rows := matching (default "" search) db) in *.
  destruct (ceil_div_finite (count rows) (b := limit) ltac:(lia)) as (q & Hq & Hb).
  assert (Hcount : 0 <= count rows) by (unfold count; lia).
  assert (Hq0 : 0 <= q) by nia.
  exists (Z.to_nat q). split; [| split].
  - rewrite get_customers_eq; simpl default; try (simpl; lia).
    unfold total_pages_of. simpl.
    fold rows. rewrite Hq, Z2Nat.id by exact Hq0. reflexivity.
  - exists (map (fun k => firstn (Z.to_nat limit)
                            (skipn ((k - 1) * Z.to_nat limit) rows))
                (seq 1 (Z.to_nat q))).
    split.
    + rewrite map_map. apply map_ext_in. intros k Hk. apply in_seq in Hk.
      apply page_rows_window; [lia | lia | nia].
    + rewrite windows_concat. apply firstn_all2. unfold count in Hb. nia.
  - intros k Hk Hr. rewrite page_rows_window by lia. fold rows.
    rewrite skipn_all2; [rewrite firstn_nil; reflexivity |].
    unfold count in Hb. nia.
Qed.

Lemma pages_cover_matching_rows_witness :
  exists q : nat,
    total_pages_of
      (fst (get_customers (Query.make (Some 1) (Some 2) None) three_customers))
    = Some (Finite (Z.of_nat q))
    /\ (exists pages,
          map (page_rows 2 None three_customers) (seq 1 q) = map Some pages
          /\ List.concat pages = matching (default "" None) three_customers)
    /\ forall k, (q < k)%nat -> Z.of_nat k * 2 <= 2 ^ 53 ->
         page_rows 2 None three_customers k = Some [].
Proof.
  apply (@pages_cover_matching_rows 2 None three_customers);
    vm_compute; discriminate.
Defined.

(** X17: the limit is not validated.  With [limit = 0] and a page of
    magnitude below 2^53 the listing is still answered 200, with no rows,
    and [totalPages] is the quotient by zero: [NaN] when nothing matches and
    [Infinity] otherwise.  With a negative limit, [page >= 1] and
    [page * -limit <= 2^53] it returns every matching row, on every page.
    With a limit that is not an integer of 64 bits the store refuses the
    statement, and the answer is 500. *)
Theorem list_limit_not_validated
  (page limit : Z) (search : option string) (db : database) :
  let res := fst (get_customers (Query.make (Some page) (Some limit) search) db) in
  let rows := matching (default "" search) db in
  (limit = 0 -> - 2 ^ 53 < page <= 2 ^ 53 ->
   status res = 200
   /\ customers_of res = []
   /\ total_pages_of res = Some (if count rows =? 0 then NaN else PosInfinity))
  /\ (limit < 0 -> 1 <= page -> page * - limit <= 2 ^ 53 ->
      status res = 200 /\ customers_of res = rows)
  /\ (int64 limit = false ->
      res = {| status := 500;
               body := MessageError "Error fetching customers."
                                    "SQLITE_MISMATCH: datatype mismatch" |}).
Proof.
  intros res rows. unfold res. split; [| split].
  - intros -> Hp. rewrite get_customers_eq; simpl default; try (simpl; lia).
    fold rows. split; [reflexivity |].
    unfold customers_of, total_pages_of, limit_offset, ceil_div. simpl.
    split; [reflexivity |].
    destruct (Z.eqb_spec (count rows) 0) as [_ | N]; [reflexivity |].
    assert (H : 0 < count rows) by (unfold count in *; lia).
    apply Z.ltb_lt in H. rewrite H. reflexivity.
  - intros Hl Hp Hr. rewrite get_customers_eq; simpl default; try nia.
    fold rows. split; [reflexivity |].
    unfold customers_of, limit_offset. simpl.
    apply Z.ltb_lt in Hl as Hl'. rewrite Hl'.
    replace (Z.to_nat ((page - 1) * limit)) with 0%nat by nia. reflexivity.
  - intros Hl. rewrite get_customers_limit_refused by exact Hl. reflexivity.
Qed.

Lemma list_limit_not_validated_witness :
  customers_of
    (fst (get_customers (Query.make (Some 1) (Some 0) None) three_customers)) = []
  /\ total_pages_of
       (fst (get_customers (Query.make (Some 1) (Some 0) None) three_customers))
     = Some PosInfinity
  /\ customers_of
       (fst (get_customers (Query.make (Some 3) (Some (-1)) None) three_customers))
     = customers three_customers
  /\ status
       (fst (get_customers
               (Query.make (Some 1) (Some (-9223372036854775809)) None)
               three_customers))
     = 500.
Proof.
  assert (B : - 2 ^ 53 < 1 <= 2 ^ 53) by (split; vm_compute; congruence).
  split; [| split; [| split]].
  - apply (proj1 (list_limit_not_validated 1 0 None three_customers) eq_refl B).
  - apply (proj1 (list_limit_not_validated 1 0 None three_customers) eq_refl B).
  - apply (proj1 (proj2 (list_limit_not_validated 3 (-1) None three_customers)));
      vm_compute; congruence.
  - rewrite (proj2 (proj2 (list_limit_not_validated 1 (-9223372036854775809)
                             None three_customers)) eq_refl).
    reflexivity.
Defined.

(* ------------------------------------------------------------------ *)
(** ** The search text inside the [LIKE] pattern                        *)
(* ------------------------------------------------------------------ *)

Lemma like_percent_run (pat : string) :
  percent_only pat = true -> forall t, like_text (String "%" pat) t = true.
Proof.
  induction pat as [| c pat IH]; intros Hp t.
  - apply like_percent_only.
  - unfold percent_only in Hp. simpl in Hp. apply andb_true_iff in Hp.
    destruct Hp as [Hc Hp]. apply Ascii.eqb_eq in Hc. subst c.
    rewrite like_percent. apply try_boundaries_always. apply (IH Hp).
Qed.

Lemma percent_only_app (s t : string) :
  percent_only s = true -> percent_only t = true ->
  percent_only (s ++ t) = true.
Proof.
  unfold percent_only. induction s as [| c s IH]; simpl; intros Hs Ht; [exact Ht |].
  apply andb_true_iff in Hs. destruct Hs as [Hc Hs].
  rewrite Hc. simpl. apply IH; assumption.
Qed.

Lemma percent_only_nul_free (s : string) :
  percent_only s = true -> nul_free s = true.
Proof.
  unfold percent_only, nul_free. induction s as [| c s IH]; simpl; [reflexivity |].
  intros H. apply andb_true_iff in H. destruct H as [Hc H].
  apply Ascii.eqb_eq in Hc. subst c. simpl. apply IH. exact H.
Qed.

(** A non-empty search made of ["%"] only keeps every row. *)
Lemma matching_percent (search : string) (db : database) :
  search <> "" -> percent_only search = true ->
  matching search db = customers db.
Proof.
  intros Hne Hp. unfold matching, search_pattern, truthy.
  destruct (String.eqb_spec search "") as [E | _]; [contradiction |].
  cbv [negb].
  assert (Hall : forall c, where_like (Some ("%" ++ search ++ "%")%string) c = true).
  { intros c. unfold where_like, like.
    change ("%" ++ search ++ "%")%string with (String "%" (search ++ "%")).
    assert (Hpat : percent_only (search ++ "%") = true)
      by (apply percent_only_app; [exact Hp | reflexivity]).
    rewrite (until_nul_free (String "%" (search ++ "%")))
      by (apply (percent_only_nul_free (String "%" (search ++ "%"))); exact Hpat).
    rewrite !like_percent_run by exact Hpat. reflexivity. }
  apply filter_keeps_all. exact Hall.
Qed.

(** Two listings that ask for the same page and limit and whose searches
    keep the same rows are answered alike. *)
Lemma get_customers_matching (req req' : Query.t) (db : database) :
  Query.page req = Query.page req' -> Query.limit req = Query.limit req' ->
  matching (default "" (Query.search req)) db
  = matching (default "" (Query.search req')) db ->
  get_customers req db = get_customers req' db.
Proof.
  intros Hp Hl Hm.
  rewrite (surjective_pairing (get_customers req db)),
    (surjective_pairing (get_customers req' db)), !get_customers_snd.
  f_equal. apply get_customers_fst_matching; assumption.
Qed.

(** X18: the search text goes into the [LIKE] pattern as it is, so its
    ["%"] characters are wildcards: a listing whose search is not empty and
    made of ["%"] only is answered what the listing without search is
    answered, on every page and for every limit, whatever the names and
    phone numbers are. *)
Theorem search_percent_selects_all
  (search : string) (page limit : option Z) (db : database) :
  search <> "" -> percent_only search = true ->
  get_customers (Query.make page limit (Some search)) db
  = get_customers (Query.make page limit None) db.
Proof.
  intros Hne Hp. apply get_customers_matching; try reflexivity.
  cbn [Query.search default]. rewrite (matching_percent db Hne Hp).
  unfold matching, search_pattern. cbn [truthy String.eqb negb].
  symmetry. apply filter_keeps_all. reflexivity.
Qed.

Lemma search_percent_selects_all_witness :
  get_customers (Query.make None None (Some "%")) three_customers
  = get_customers (Query.make None None None) three_customers.
Proof.
  apply (@search_percent_selects_all "%" None None three_customers).
  - discriminate.
  - reflexivity.
Defined.

Lemma to_lower_keeps_percent c : Ascii.eqb (to_lower c) "%" = Ascii.eqb c "%".
Proof. destruct c as [[] [] [] [] [] [] [] []]; reflexivity. Qed.

Lemma to_lower_keeps_underscore c : Ascii.eqb (to_lower c) "_" = Ascii.eqb c "_".
Proof. destruct c as [[] [] [] [] [] [] [] []]; reflexivity. Qed.

Lemma to_lower_keeps_nul c : Ascii.eqb (to_lower c) zero = Ascii.eqb c zero.
Proof. destruct c as [[] [] [] [] [] [] [] []]; reflexivity. Qed.

(** A pattern matches what the pattern with its letters folded matches. *)
Lemma like_text_lower (p q : string) :
  lower p = lower q -> forall t, like_text p t = like_text q t.
Proof.
  revert q. induction p as [| a p IH]; intros q H t.
  - destruct q; [reflexivity | discriminate].
  - destruct q as [| b q]; [discriminate |].
    simpl in H. injection H as Hab Hpq.
    assert (Hpc : Ascii.eqb a "%" = Ascii.eqb b "%")
      by (rewrite <- (to_lower_keeps_percent a), <- (to_lower_keeps_percent b), Hab;
          reflexivity).
    assert (Hus : Ascii.eqb a "_" = Ascii.eqb b "_")
      by (rewrite <- (to_lower_keeps_underscore a),
            <- (to_lower_keeps_underscore b), Hab; reflexivity).
    destruct (Ascii.eqb_spec a "%") as [-> | Na].
    + symmetry in Hpc. apply Ascii.eqb_eq in Hpc. subst b.
      rewrite !like_percent. apply try_boundaries_ext. apply IH. exact Hpq.
    + destruct (Ascii.eqb_spec a "_") as [-> | Nu].
      * symmetry in Hus. apply Ascii.eqb_eq in Hus. subst b.
        simpl. destruct (skip_char t); [apply IH; exact Hpq | reflexivity].
      * assert (Wa : wildcard a = false).
        { unfold wildcard. apply orb_false_iff.
          split; apply Ascii.eqb_neq; assumption. }
        assert (Wb : wildcard b = false).
        { unfold wildcard. rewrite <- Hpc, <- Hus. reflexivity. }
        rewrite !like_plain by assumption.
        destruct t as [| c t]; [reflexivity |].
        unfold char_eq_nocase. rewrite Hab, (IH q Hpq). reflexivity.
Qed.

Lemma until_nul_lower (p q : string) :
  lower p = lower q -> lower (until_nul p) = lower (until_nul q).
Proof.
  revert q. induction p as [| a p IH]; intros q H.
  - destruct q; [reflexivity | discriminate].
  - destruct q as [| b q]; [discriminate |].
    simpl in H. injection H as Hab Hpq. simpl.
    rewrite <- (to_lower_keeps_nul a), <- (to_lower_keeps_nul b), Hab.
    destruct (Ascii.eqb (to_lower b) zero); [reflexivity |].
    simpl. rewrite Hab, (IH q Hpq). reflexivity.
Qed.

Lemma like_lower (p q : string) :
  lower p = lower q -> forall t, like p t = like q t.
Proof.
  intros H t. unfold like. apply like_text_lower. apply until_nul_lower. exact H.
Qed.

Lemma lower_app (s t : string) : lower (s ++ t) = (lower s ++ lower t)%string.
Proof. induction s as [| c s IH]; simpl; [reflexivity | rewrite IH; reflexivity]. Qed.

(** Two search texts that differ in letter case only keep the same rows. *)
Lemma matching_lower (s s' : string) (db : database) :
  lower s = lower s' ->
  matching s db = matching s' db.
Proof.
  intros H. unfold matching, search_pattern, truthy.
  destruct s as [| a s], s' as [| a' s']; try discriminate; [reflexivity |].
  simpl negb. cbv iota.
  apply filter_ext. intros c. unfold where_like.
  assert (Hp : lower ("%" ++ String a s ++ "%") = lower ("%" ++ String a' s' ++ "%")).
  { rewrite !lower_app, H. reflexivity. }
  rewrite !(like_lower _ _ Hp). reflexivity.
Qed.

(** X19: the listing does not depend on the letter case of the search
    text: two listings whose search texts differ only in the case of ASCII
    letters are answered alike, on every page and for every limit. *)
Theorem search_text_case_is_ignored
  (s s' : string) (page limit : option Z) (db : database) :
  lower s = lower s' ->
  get_customers (Query.make page limit (Some s)) db
  = get_customers (Query.make page limit (Some s')) db.
Proof.
  intros H. apply get_customers_matching; try reflexivity.
  cbn [Query.search default]. apply matching_lower. exact H.
Qed.

Lemma search_text_case_is_ignored_witness :
  get_customers (Query.make None None (Some "ann")) three_customers
  = get_customers (Query.make None None (Some "ANN")) three_customers
  /\ customers_of
       (fst (get_customers (Query.make None None (Some "ann")) three_customers))
     = [mkCustomer 1 "Ann" "Lee" "5550100"].
Proof.
  split.
  - apply (@search_text_case_is_ignored "ann" "ANN" None None three_customers).
    reflexivity.
  - reflexivity.
Defined.

(* ------------------------------------------------------------------ *)
(** ** The shape of the answers                                         *)
(* ------------------------------------------------------------------ *)

(** X20: the answers of every route.  The status is one of 200, 201, 400,
    404, 500.  A 400 or a 404 carries, beside its message, the fixed error
    text 'An unknown error occurred.' that [sendError] uses when it is given
    no error.  A request with a body, or to a route that reads none, that is
    answered 500 carries the message of the store's error.  A request
    without a body to a route that reads one is always answered 500, and
    what it carries is the uncaught [TypeError], not a message of the
    handler. *)
Theorem answers_shape (r : request) (db : database) :
  let res := fst (route r db) in
  (status res = 200 \/ status res = 201 \/ status res = 400
   \/ status res = 404 \/ status res = 500)
  /\ (status res = 400 \/ status res = 404 ->
      exists message, body res = MessageError message "An unknown error occurred.")
  /\ (status res = 500 -> bodiless r = false ->
      exists message err, body res = MessageError message (error_message err))
  /\ (bodiless r = true ->
      status res = 500 /\ exists exception, body res = Uncaught exception).
Proof.
  destruct r as [[req |] | req | i | i [req |] | i | i [req |] | i | i [req |] | i];
    cbn [route bodiless].
  - unfold post_customers, insert_customer. split_handler; answer_shape.
  - unfold post_customers. answer_shape.
  - unfold get_customers, count_customers, select_customers. cbv zeta.
    destruct (negb _); [answer_shape |].
    destruct (js_mul _ _); try answer_shape.
    destruct (_ && _); answer_shape.
  - unfold get_customer, select_customer. split_handler; answer_shape.
  - unfold put_customer, update_customer. split_handler; answer_shape.
  - unfold put_customer. answer_shape.
  - unfold delete_customers, delete_customer. cbv zeta. cbn [changes].
    split_handler; answer_shape.
  - unfold post_addresses, insert_address. split_handler; answer_shape.
  - unfold post_addresses. answer_shape.
  - unfold get_addresses, select_addresses. answer_shape.
  - unfold put_address, update_address. split_handler; answer_shape.
  - unfold put_address. answer_shape.
  - unfold delete_addresses, delete_address. cbv zeta. cbn [changes].
    split_handler; answer_shape.
Qed.

Lemma answers_shape_witness :
  (exists message,
     body (fst (route (GET_customer 7) sample_store))
     = MessageError message "An unknown error occurred.")
  /\ (exists message err,
        body (fst (route (POST_customers (Some (text_customer "Cy" "Orr" "5550100")))
                         sample_store))
        = MessageError message (error_message err))
  /\ (status (fst (route (POST_customers None) sample_store)) = 500
      /\ exists exception,
           body (fst (route (POST_customers None) sample_store))
           = Uncaught exception).
Proof.
  split; [| split].
  - apply (proj1 (proj2 (answers_shape (GET_customer 7) sample_store))).
    right. reflexivity.
  - apply (proj1 (proj2 (proj2 (answers_shape
                           (POST_customers (Some (text_customer "Cy" "Orr" "5550100")))
                           sample_store)))); reflexivity.
  - apply (proj2 (proj2 (proj2 (answers_shape (POST_customers None) sample_store)))).
    reflexivity.
Defined.
